(** * BTCNews: the poll / dedup / notify pipeline of [BTCNews.py]

    A shallow embedding of the Telegram bot's core: the fingerprint
    generator [generate_news_id], the translator [translate_text], the
    fetcher [fetch_bitcoin_news], the SQLite table [news] used as dedup
    store, and the two pipelines [check_and_send_news] (scheduled) and
    [latest_news] (on demand).

    Conventions.
    - A Python [str] is represented by its UTF-8 encoding, a [string] of
      bytes; text that cannot be encoded (lone surrogates) is not modelled.
    - JSON scalars that reach the code are [null], integers and strings;
      containers are modelled only where the services' schemas have them
      (the article's [source] object, the translator's [responseData]).
    - The network (NewsAPI, MyMemory, Telegram) is an oracle indexed by
      the number of external calls made so far, so that the same request
      may be answered differently at different times.
    - SQLite itself is reliable: the only statement that can fail is an
      INSERT that violates the PRIMARY KEY (integers are taken to fit
      SQLite's 64-bit INTEGER). *)

From Stdlib Require Import ZArith List String Ascii Bool Lia Arith.
From Stdlib Require Import DecimalString.
Import ListNotations.
Local Open Scope string_scope.

(* ================================================================== *)
(** ** Python values and text                                          *)
(* ================================================================== *)

(** The scalars a decoded JSON field holds. *)
Inductive pyval : Type :=
  | PNone
  | PInt (z : Z)
  | PStr (s : string).

(** [str(v)], as an f-string interpolates it. *)
Definition py_str (v : pyval) : string :=
  match v with
  | PNone => "None"
  | PInt z => NilEmpty.string_of_int (Z.to_int z)
  | PStr s => s
  end.

(** [v == 200] for the translator's [responseStatus]. *)
Definition py_eq_int (v : pyval) (n : Z) : bool :=
  match v with
  | PInt z => Z.eqb z n
  | _ => false
  end.

Definition byte_of (c : ascii) : Z := Z.of_N (N_of_ascii c).

Fixpoint bytes_of (s : string) : list Z :=
  match s with
  | EmptyString => []
  | String c r => byte_of c :: bytes_of r
  end.

(** Length in bytes of the longest whitespace character (in the sense of
    [str.isspace]) that is a prefix of the UTF-8 bytes [l]; [0] when the
    text does not begin with whitespace.  The whitespace code points are
    U+0009..000D, U+001C..0020, U+0085, U+00A0, U+1680, U+2000..200A,
    U+2028, U+2029, U+202F, U+205F and U+3000. *)
Definition space_prefix (l : list Z) : nat :=
  match l with
  | b0 :: r =>
      if ((9 <=? b0) && (b0 <=? 13) || (28 <=? b0) && (b0 <=? 32))%Z then 1
      else match r with
      | b1 :: r' =>
          if ((b0 =? 194) && ((b1 =? 133) || (b1 =? 160)))%Z then 2
          else match r' with
          | b2 :: _ =>
              if ((b0 =? 225) && (b1 =? 154) && (b2 =? 128)
                  || (b0 =? 226) && (b1 =? 128)
                       && ((128 <=? b2) && (b2 <=? 138)
                           || (b2 =? 168) || (b2 =? 169) || (b2 =? 175))
                  || (b0 =? 226) && (b1 =? 129) && (b2 =? 159)
                  || (b0 =? 227) && (b1 =? 128) && (b2 =? 128))%Z
              then 3 else 0
          | [] => 0
          end
      | [] => 0
      end
  | [] => 0
  end.

(** [all_space fuel l]: every character of [l] is whitespace. *)
Fixpoint all_space (fuel : nat) (l : list Z) : bool :=
  match l with
  | [] => true
  | _ :: _ =>
      match fuel, space_prefix l with
      | S f, S k => all_space f (skipn (S k) l)
      | _, _ => false
      end
  end.

(** [not text.strip()]: the text is empty or consists of whitespace. *)
Definition strip_is_empty (text : string) : bool :=
  all_space (String.length text) (bytes_of text).

(* ================================================================== *)
(** ** MD5 ([hashlib.md5(...).hexdigest()])                             *)
(* ================================================================== *)

Module MD5.
Local Open Scope Z_scope.

Definition mask32 : Z := 0xFFFFFFFF.
Definition wrap (x : Z) : Z := Z.land x mask32.
Definition add32 (x y : Z) : Z := wrap (x + y).
Definition not32 (x : Z) : Z := Z.lxor x mask32.
Definition rotl32 (x n : Z) : Z :=
  wrap (Z.lor (Z.shiftl x n) (Z.shiftr x (32 - n))).

(** floor(2^32 * abs(sin(i + 1))) *)
Definition K : list Z :=
  [ 0xd76aa478; 0xe8c7b756; 0x242070db; 0xc1bdceee;
    0xf57c0faf; 0x4787c62a; 0xa8304613; 0xfd469501;
    0x698098d8; 0x8b44f7af; 0xffff5bb1; 0x895cd7be;
    0x6b901122; 0xfd987193; 0xa679438e; 0x49b40821;
    0xf61e2562; 0xc040b340; 0x265e5a51; 0xe9b6c7aa;
    0xd62f105d; 0x02441453; 0xd8a1e681; 0xe7d3fbc8;
    0x21e1cde6; 0xc33707d6; 0xf4d50d87; 0x455a14ed;
    0xa9e3e905; 0xfcefa3f8; 0x676f02d9; 0x8d2a4c8a;
    0xfffa3942; 0x8771f681; 0x6d9d6122; 0xfde5380c;
    0xa4beea44; 0x4bdecfa9; 0xf6bb4b60; 0xbebfbc70;
    0x289b7ec6; 0xeaa127fa; 0xd4ef3085; 0x04881d05;
    0xd9d4d039; 0xe6db99e5; 0x1fa27cf8; 0xc4ac5665;
    0xf4292244; 0x432aff97; 0xab9423a7; 0xfc93a039;
    0x655b59c3; 0x8f0ccc92; 0xffeff47d; 0x85845dd1;
    0x6fa87e4f; 0xfe2ce6e0; 0xa3014314; 0x4e0811a1;
    0xf7537e82; 0xbd3af235; 0x2ad7d2bb; 0xeb86d391 ].

(** Per-round left-rotation amounts. *)
Definition shifts : list Z :=
  [ 7; 12; 17; 22; 7; 12; 17; 22; 7; 12; 17; 22; 7; 12; 17; 22;
    5; 9; 14; 20; 5; 9; 14; 20; 5; 9; 14; 20; 5; 9; 14; 20;
    4; 11; 16; 23; 4; 11; 16; 23; 4; 11; 16; 23; 4; 11; 16; 23;
    6; 10; 15; 21; 6; 10; 15; 21; 6; 10; 15; 21; 6; 10; 15; 21 ].

Definition word_state : Type := (Z * Z * Z * Z)%type.

Definition init_state : word_state :=
  (0x67452301, 0xefcdab89, 0x98badcfe, 0x10325476).

(** Padding: a 1 bit, zeros up to 56 mod 64 bytes, then the bit length
    as a 64-bit little-endian integer. *)
Fixpoint le_bytes (n : nat) (x : Z) : list Z :=
  match n with
  | O => []
  | S n' => Z.land x 0xFF :: le_bytes n' (Z.shiftr x 8)
  end.

Definition pad (msg : list Z) : list Z :=
  let len := Z.of_nat (List.length msg) in
  let zeros := Z.to_nat ((55 - len) mod 64) in
  msg ++ [0x80] ++ repeat 0 zeros
      ++ le_bytes 8 (Z.land (8 * len) 0xFFFFFFFFFFFFFFFF).

Fixpoint le_word (bs : list Z) : Z :=
  match bs with
  | [] => 0
  | b :: r => Z.lor b (Z.shiftl (le_word r) 8)
  end.

(** The sixteen little-endian words of a 64-byte block. *)
Fixpoint words (n : nat) (block : list Z) : list Z :=
  match n with
  | O => []
  | S n' => le_word (firstn 4 block) :: words n' (skipn 4 block)
  end.

Definition round (M : list Z) (st : word_state) (i : nat) : word_state :=
  let '(A, B, C, D) := st in
  let iz := Z.of_nat i in
  let '(F, g) :=
    if iz <? 16 then (Z.lor (Z.land B C) (Z.land (not32 B) D), iz)
    else if iz <? 32 then
      (Z.lor (Z.land D B) (Z.land (not32 D) C), (5 * iz + 1) mod 16)
    else if iz <? 48 then (Z.lxor (Z.lxor B C) D, (3 * iz + 5) mod 16)
    else (Z.lxor C (Z.lor B (not32 D)), (7 * iz) mod 16) in
  let F' := add32 (add32 (add32 F A) (nth i K 0)) (nth (Z.to_nat g) M 0) in
  (D, add32 B (rotl32 F' (nth i shifts 0)), B, C).

Definition compress (st : word_state) (block : list Z) : word_state :=
  let '(a0, b0, c0, d0) := st in
  let '(A, B, C, D) := fold_left (round (words 16 block)) (seq 0 64) st in
  (add32 a0 A, add32 b0 B, add32 c0 C, add32 d0 D).

Fixpoint blocks (n : nat) (st : word_state) (bs : list Z) : word_state :=
  match n with
  | O => st
  | S n' => blocks n' (compress st (firstn 64 bs)) (skipn 64 bs)
  end.

Definition digest (msg : list Z) : word_state :=
  let p := pad msg in
  blocks (List.length p / 64) init_state p.

Definition hex_digit (x : Z) : ascii :=
  if x <? 10 then ascii_of_N (Z.to_N (48 + x))
  else ascii_of_N (Z.to_N (87 + x)).

Definition hex_byte (b : Z) : string :=
  String (hex_digit (Z.shiftr b 4 mod 16)) (String (hex_digit (b mod 16)) "").

Definition hex_word (w : Z) : string :=
  match le_bytes 4 w with
  | [b0; b1; b2; b3] =>
      (hex_byte b0 ++ hex_byte b1 ++ hex_byte b2 ++ hex_byte b3)%string
  | _ => ""%string
  end.

Definition hexdigest (msg : list Z) : string :=
  let '(a, b, c, d) := digest msg in
  (hex_word a ++ hex_word b ++ hex_word c ++ hex_word d)%string.
End MD5.

(** [hashlib.md5(f"{title}{url}".encode()).hexdigest()] *)
Definition generate_news_id (title url : pyval) : string :=
  MD5.hexdigest (bytes_of (py_str title ++ py_str url)).


(* ================================================================== *)
(** ** Timestamps: [datetime.strptime] and [strftime]                  *)
(* ================================================================== *)

Record datetime : Type := mkDatetime {
  year : nat; month : nat; day : nat;
  hour : nat; minute : nat; second : nat
}.

Definition is_leap (y : nat) : bool :=
  ((y mod 4 =? 0) && (negb (y mod 100 =? 0) || (y mod 400 =? 0)))%nat.

Definition days_in_month (y m : nat) : nat :=
  match m with
  | 2 => if is_leap y then 29 else 28
  | 4 | 6 | 9 | 11 => 30
  | _ => 31
  end.

(** [datetime.MAXYEAR], 9999. *)
Definition MAXYEAR : nat := 9 * 1000 + 999.

(** The range checks of the [datetime] constructor. *)
Definition valid_datetime (d : datetime) : bool :=
  ((1 <=? year d) && (year d <=? MAXYEAR)
   && (1 <=? month d) && (month d <=? 12)
   && (1 <=? day d) && (day d <=? days_in_month (year d) (month d))
   && (hour d <=? 23) && (minute d <=? 59) && (second d <=? 59))%nat.

Module Strptime.
Local Open Scope nat_scope.
(** The regular expression that [_strptime] builds for
    ['%Y-%m-%dT%H:%M:%SZ'], matched with IGNORECASE:
<<
    (\d\d\d\d)-(1[0-2]|0[1-9]|[1-9])-(3[0-1]|[1-2]\d|0[1-9]|[1-9]| [1-9])
    T(2[0-3]|[0-1]\d|\d):([0-5]\d|\d):(6[0-1]|[0-5]\d|\d)Z
>>
    written as a backtracking matcher in continuation-passing style.
    Only the ASCII digits are recognised. *)

Definition is_digit (c : ascii) : bool :=
  (48 <=? nat_of_ascii c) && (nat_of_ascii c <=? 57).

Definition digit_val (c : ascii) : nat := nat_of_ascii c - 48.

Definition orelse {A} (x y : option A) : option A :=
  match x with Some _ => x | None => y end.

(** Two digits whose value lies in [lo..hi]. *)
Definition two_digits {A} (lo hi : nat) (k : nat -> string -> option A)
    (s : string) : option A :=
  match s with
  | String c1 (String c2 r) =>
      let v := 10 * digit_val c1 + digit_val c2 in
      if is_digit c1 && is_digit c2 && (lo <=? v) && (v <=? hi)
      then k v r else None
  | _ => None
  end.

(** One digit whose value lies in [lo..hi]. *)
Definition one_digit {A} (lo hi : nat) (k : nat -> string -> option A)
    (s : string) : option A :=
  match s with
  | String c r =>
      let v := digit_val c in
      if is_digit c && (lo <=? v) && (v <=? hi) then k v r else None
  | _ => None
  end.

(** A literal character; letters match in either case. *)
Definition lit {A} (lower upper : ascii) (k : string -> option A)
    (s : string) : option A :=
  match s with
  | String c r =>
      if Ascii.eqb c lower || Ascii.eqb c upper then k r else None
  | _ => None
  end.

Definition four_digits {A} (k : nat -> string -> option A) (s : string)
    : option A :=
  match s with
  | String c1 (String c2 (String c3 (String c4 r))) =>
      if is_digit c1 && is_digit c2 && is_digit c3 && is_digit c4
      then k (1000 * digit_val c1 + 100 * digit_val c2
              + 10 * digit_val c3 + digit_val c4) r
      else None
  | _ => None
  end.

Definition directive_m {A} (k : nat -> string -> option A) (s : string) :=
  orelse (two_digits 1 12 k s) (one_digit 1 9 k s).

Definition directive_d {A} (k : nat -> string -> option A) (s : string) :=
  orelse (two_digits 1 31 k s)
    (orelse (one_digit 1 9 k s) (lit " " " " (one_digit 1 9 k) s)).

Definition directive_H {A} (k : nat -> string -> option A) (s : string) :=
  orelse (two_digits 0 23 k s) (one_digit 0 9 k s).

Definition directive_M {A} (k : nat -> string -> option A) (s : string) :=
  orelse (two_digits 0 59 k s) (one_digit 0 9 k s).

Definition directive_S {A} (k : nat -> string -> option A) (s : string) :=
  orelse (two_digits 0 61 k s) (one_digit 0 9 k s).

(** The first match of the pattern: the six fields and the text left. *)
Definition regex_match (s : string) : option (datetime * string) :=
  four_digits (fun Y =>
  lit "-" "-" (directive_m (fun m =>
  lit "-" "-" (directive_d (fun d =>
  lit "t" "T" (directive_H (fun H =>
  lit ":" ":" (directive_M (fun M =>
  lit ":" ":" (directive_S (fun S =>
  lit "z" "Z" (fun rest =>
    Some (mkDatetime Y m d H M S, rest))))))))))))) s.

(** [None] stands for the [ValueError] of a text that does not match,
    of unconverted trailing data, or of a field out of range. *)
Definition parse (s : string) : option datetime :=
  match regex_match s with
  | Some (d, EmptyString) => if valid_datetime d then Some d else None
  | _ => None
  end.
End Strptime.

Definition decimal (n : nat) : string := NilEmpty.string_of_uint (Nat.to_uint n).

(** [%d], [%m], [%H], [%M]: zero-padded to two digits. *)
Definition pad2 (n : nat) : string :=
  if (n <? 10)%nat then "0" ++ decimal n else decimal n.

(** [published_at.strftime('%d.%m.%Y %H:%M')].  [%Y] is the year in
    decimal; whether a year below 1000 gets leading zeros depends on the
    C library and the Python version (none here, as with glibc), so the
    properties below rely on [%Y] for four-digit years only. *)
Definition strftime (d : datetime) : string :=
  pad2 (day d) ++ "." ++ pad2 (month d) ++ "." ++ decimal (year d)
  ++ " " ++ pad2 (hour d) ++ ":" ++ pad2 (minute d).

(* ================================================================== *)
(** ** The dedup store: table [news] behind one shared connection       *)
(* ================================================================== *)

(** One row of [news (id TEXT PRIMARY KEY, title, title_ru, url, source,
    published_at)]. *)
Record row : Type := mkRow {
  row_id : string;
  row_title : pyval;
  row_title_ru : pyval;
  row_url : pyval;
  row_source : pyval;
  row_published_at : datetime
}.

(** The connection [conn]: the rows committed to [news.db] and the rows
    inserted in the transaction that is still open. *)
Record database : Type := mkDatabase {
  committed : list row;
  pending : list row
}.

(** What a statement on [conn] sees. *)
Definition visible (d : database) : list row := committed d ++ pending d.

(** [c.execute('SELECT id FROM news WHERE id=?', (news_id,)); c.fetchone()] *)
Definition select_id (d : database) (news_id : string) : option string :=
  match find (fun r => String.eqb (row_id r) news_id) (visible d) with
  | Some r => Some (row_id r)
  | None => None
  end.

(** [c.execute('INSERT INTO news VALUES (?, ?, ?, ?, ?, ?)', ...)];
    [None] is the [IntegrityError] of the PRIMARY KEY constraint. *)
Definition insert_row (d : database) (r : row) : option database :=
  match select_id d (row_id r) with
  | Some _ => None
  | None => Some (mkDatabase (committed d) (pending d ++ [r]))
  end.

(** [conn.commit()] *)
Definition commit_db (d : database) : database :=
  mkDatabase (committed d ++ pending d) [].

(** The file [news.db]: [None] while it has no table [news]. *)
Definition db_file : Type := option (list row).

(** [CREATE TABLE IF NOT EXISTS news (...)] *)
Definition create_table_if_not_exists (f : db_file) : db_file :=
  match f with
  | None => Some []
  | Some rows => Some rows
  end.

(** Module start: [sqlite3.connect], the CREATE TABLE, [conn.commit()]. *)
Definition startup (f : db_file) : database :=
  match create_table_if_not_exists f with
  | Some rows => mkDatabase rows []
  | None => mkDatabase [] []
  end.

(** [conn.close()] (or the end of the process): the open transaction is
    rolled back, the committed rows stay in the file. *)
Definition shutdown (d : database) : db_file := Some (committed d).

(* ================================================================== *)
(** ** Program state, exceptions and the network                       *)
(* ================================================================== *)

(** The exceptions (all subclasses of [Exception]) the code can meet. *)
Inductive exn : Type :=
  | KeyError | TypeError | AttributeError | ValueError
  | IntegrityError
  | RequestException      (* requests.get: timeout, connection failure *)
  | HTTPError             (* raise_for_status *)
  | JSONDecodeError       (* response.json() *)
  | TelegramError.        (* the bot API refuses or cannot be reached *)

(** What goes to the logger. *)
Inductive log_entry : Type :=
  | LogTranslateError (e : exn)     (* "Ошибка перевода: ..." *)
  | LogNewsApiError (e : exn)       (* "Ошибка News API: ..." *)
  | LogNoNews                       (* "Новых новостей не найдено" *)
  | LogArticleError (e : exn)       (* "Ошибка обработки статьи: ..." *)
  | LogCritical (e : exn)           (* "Критическая ошибка: ..." *)
  | LogLatestError (e : exn).       (* "Ошибка в /latest: ..." *)

(** A message that Telegram accepted: the chat and the text. *)
Definition message : Type := (Z * string)%type.

Record state : Type := mkState {
  db : database;            (* conn / c *)
  outbox : list message;    (* messages delivered so far *)
  log : list log_entry;     (* logger *)
  clock : nat               (* external calls made so far *)
}.

(** An HTTP exchange: no response at all, or a status code and a body
    ([None] when the body is not JSON). *)
Inductive http_reply (B : Type) : Type :=
  | NoResponse
  | Response (status : Z) (body : option B).
Arguments NoResponse {B}.
Arguments Response {B} status body.

(** The value of the article's [source] member. *)
Inductive source_value : Type :=
  | SourceScalar (v : pyval)              (* not an object *)
  | SourceObject (name : option pyval).   (* an object, with or without name *)

(** One element of NewsAPI's [articles]; a member is [None] when the key
    is absent (an element that is no object has no member at all). *)
Record article : Type := mkArticle {
  art_title : option pyval;
  art_url : option pyval;
  art_source : option source_value;
  art_publishedAt : option pyval
}.

(** The value of [articles]: [null] or a list. *)
Inductive fetched : Type :=
  | FNone
  | FList (l : list article).

(** NewsAPI's decoded body: some JSON that is no object, or an object
    with or without the member [articles]. *)
Inductive news_json : Type :=
  | NewsNotObject
  | NewsObject (articles : option fetched).

(** The translator's [responseData] member. *)
Inductive response_data : Type :=
  | DataScalar (v : pyval)
  | DataObject (translatedText : option pyval).

(** MyMemory's decoded body. *)
Inductive translate_json : Type :=
  | TranslateNotObject
  | TranslateObject (responseStatus : option pyval)
                    (responseData : option response_data).

(** The outside world, asked at call number [n]. *)
Record world : Type := mkWorld {
  news_api : nat -> http_reply news_json;
  translate_api : nat -> string -> http_reply translate_json;
  telegram : nat -> Z -> string -> bool     (* true: the message is accepted *)
}.

(** *** A state monad with exceptions; effects made before a [raise]
        stay. *)

Inductive result (A : Type) : Type :=
  | Ok (a : A)
  | Raise (e : exn).
Arguments Ok {A} a.
Arguments Raise {A} e.

Definition M (A : Type) : Type := state -> result A * state.

Definition ret {A} (a : A) : M A := fun st => (Ok a, st).

Definition bind {A B} (m : M A) (f : A -> M B) : M B :=
  fun st =>
    match m st with
    | (Ok a, st') => f a st'
    | (Raise e, st') => (Raise e, st')
    end.

Definition raise {A} (e : exn) : M A := fun st => (Raise e, st).

(** [try: m  except Exception as e: handler e] *)
Definition try_except {A} (m : M A) (handler : exn -> M A) : M A :=
  fun st =>
    match m st with
    | (Ok a, st') => (Ok a, st')
    | (Raise e, st') => handler e st'
    end.

Declare Scope monad_scope.
Delimit Scope monad_scope with monad.
Notation "x <- m ;; k" := (bind m (fun x => k))
  (at level 61, m at next level, right associativity) : monad_scope.
Notation "m ;; k" := (bind m (fun _ => k))
  (at level 61, right associativity) : monad_scope.
Local Open Scope monad_scope.

(** [for x in l: body x] *)
Fixpoint for_each {A} (l : list A) (body : A -> M unit) : M unit :=
  match l with
  | [] => ret tt
  | x :: rest => body x ;; for_each rest body
  end.

(** A loop that carries a local variable (a list being appended to). *)
Fixpoint for_each_acc {A S} (l : list A) (acc : S) (body : A -> S -> M S)
    : M S :=
  match l with
  | [] => ret acc
  | x :: rest => acc' <- body x acc ;; for_each_acc rest acc' body
  end.

Definition get_db : M database := fun st => (Ok (db st), st).

Definition put_db (d : database) : M unit :=
  fun st => (Ok tt, mkState d (outbox st) (log st) (clock st)).

Definition logger (e : log_entry) : M unit :=
  fun st => (Ok tt, mkState (db st) (outbox st) (log st ++ [e]) (clock st)).

(** The number of the next external call. *)
Definition tick : M nat :=
  fun st => (Ok (clock st), mkState (db st) (outbox st) (log st) (S (clock st))).

(** [d[key]] of a member that may be absent. *)
Definition getitem {A} (member : option A) : M A :=
  match member with
  | Some v => ret v
  | None => raise KeyError
  end.

(** [requests.get(url, params, timeout=10)] *)
Definition requests_get {B} (api : nat -> http_reply B)
    : M (Z * option B) :=
  n <- tick ;;
  match api n with
  | NoResponse => raise RequestException
  | Response status body => ret (status, body)
  end.

(** [response.raise_for_status()] *)
Definition raise_for_status (status : Z) : M unit :=
  if ((400 <=? status) && (status <? 600))%Z then raise HTTPError else ret tt.

(** [response.json()] *)
Definition response_json {B} (body : option B) : M B :=
  match body with
  | Some j => ret j
  | None => raise JSONDecodeError
  end.

(** [bot.send_message(chat_id, text, parse_mode="Markdown")] and
    [update.message.reply_text(text, ...)]. *)
Definition send_message (w : world) (chat_id : Z) (text : string) : M unit :=
  n <- tick ;;
  if telegram w n chat_id text
  then fun st => (Ok tt, mkState (db st) (outbox st ++ [(chat_id, text)])
                                 (log st) (clock st))
  else raise TelegramError.

(** The SELECT of both pipelines. *)
Definition execute_select (news_id : string) : M (option string) :=
  d <- get_db ;; ret (select_id d news_id).

(** The INSERT of both pipelines. *)
Definition execute_insert (r : row) : M unit :=
  d <- get_db ;;
  match insert_row d r with
  | Some d' => put_db d'
  | None => raise IntegrityError
  end.

Definition conn_commit : M unit :=
  d <- get_db ;; put_db (commit_db d).

(** [datetime.strptime(v, '%Y-%m-%dT%H:%M:%SZ')] *)
Definition strptime (v : pyval) : M datetime :=
  match v with
  | PStr s =>
      match Strptime.parse s with
      | Some d => ret d
      | None => raise ValueError
      end
  | _ => raise TypeError
  end.

(** [article['source']['name']] *)
Definition source_name (a : article) : M pyval :=
  src <- getitem (art_source a) ;;
  match src with
  | SourceObject name => getitem name
  | SourceScalar _ => raise TypeError
  end.

(* ================================================================== *)
(** ** The translator and the fetcher                                  *)
(* ================================================================== *)

Definition translate_text (w : world) (text : pyval) : M pyval :=
  match text with
  | PStr s =>
      if strip_is_empty s then ret text
      else
        try_except
          (response <- requests_get (fun n => translate_api w n s) ;;
           raise_for_status (fst response) ;;
           result <- response_json (snd response) ;;
           match result with
           | TranslateObject responseStatus responseData =>
               status <- getitem responseStatus ;;
               if py_eq_int status 200 then
                 data <- getitem responseData ;;
                 match data with
                 | DataObject translatedText => getitem translatedText
                 | DataScalar _ => raise TypeError
                 end
               else ret text
           | TranslateNotObject => raise TypeError
           end)
          (fun e => logger (LogTranslateError e) ;; ret text)
  | _ => raise AttributeError     (* text.strip() *)
  end.

Definition fetch_bitcoin_news (w : world) : M fetched :=
  try_except
    (response <- requests_get (news_api w) ;;
     raise_for_status (fst response) ;;
     body <- response_json (snd response) ;;
     match body with
     | NewsObject (Some articles) => ret articles
     | NewsObject None => ret (FList [])       (* .get('articles', []) *)
     | NewsNotObject => raise AttributeError
     end)
    (fun e => logger (LogNewsApiError e) ;; ret (FList [])).

(** [not articles] *)
Definition falsy (articles : fetched) : bool :=
  match articles with
  | FNone | FList [] => true
  | FList (_ :: _) => false
  end.

(** [for article in articles] *)
Definition iterate (articles : fetched) : M (list article) :=
  match articles with
  | FList l => ret l
  | FNone => raise TypeError
  end.

(** [articles[:5]] *)
Definition slice5 (articles : fetched) : M (list article) :=
  match articles with
  | FList l => ret (firstn 5 l)
  | FNone => raise TypeError
  end.

(* ================================================================== *)
(** ** The scheduled pipeline                                          *)
(* ================================================================== *)

(** An element of [new_articles]. *)
Record new_article : Type := mkNew {
  new_id : string;
  new_title : pyval;
  new_url : pyval;
  new_source : pyval;
  new_published_at : datetime
}.

Definition nl : string := String "010" "".

(** The notification of the scheduled pipeline. *)
Definition scheduled_message (translated_title : pyval) (a : new_article)
    : string :=
  "📰 *" ++ py_str translated_title ++ "*" ++ nl
  ++ "🔗 _Источник: " ++ py_str (new_source a) ++ "_" ++ nl
  ++ "📆 _Дата: " ++ strftime (new_published_at a) ++ "_" ++ nl
  ++ "[Читать оригинал](" ++ py_str (new_url a) ++ ")".

(** The body of the first loop, inside its [try]. *)
Definition identify (a : article) (new_articles : list new_article)
    : M (list new_article) :=
  title <- getitem (art_title a) ;;
  url <- getitem (art_url a) ;;
  source <- source_name a ;;
  stamp <- getitem (art_publishedAt a) ;;
  published_at <- strptime stamp ;;
  let news_id := generate_news_id title url in
  found <- execute_select news_id ;;
  match found with
  | None => ret (new_articles ++ [mkNew news_id title url source published_at])%list
  | Some _ => ret new_articles
  end.

(** The first loop: one [try] around each article. *)
Definition collect_new (articles : list article) : M (list new_article) :=
  for_each_acc articles []
    (fun a new_articles =>
       try_except (identify a new_articles)
         (fun e => logger (LogArticleError e) ;; ret new_articles)).

(** The body of the second loop. *)
Definition deliver (w : world) (chat_id : Z) (a : new_article) : M unit :=
  translated_title <- translate_text w (new_title a) ;;
  send_message w chat_id (scheduled_message translated_title a) ;;
  execute_insert (mkRow (new_id a) (new_title a) translated_title
                        (new_url a) (new_source a) (new_published_at a)) ;;
  conn_commit.

(** The [try] block of [check_and_send_news]. *)
Definition check_and_send_news_try (w : world) (chat_id : Z) : M unit :=
  articles <- fetch_bitcoin_news w ;;
  if falsy articles then logger LogNoNews
  else
    l <- iterate articles ;;
    new_articles <- collect_new l ;;
    for_each new_articles (deliver w chat_id).

Definition check_and_send_news (w : world) (chat_id : Z) : M unit :=
  try_except (check_and_send_news_try w chat_id)
             (fun e => logger (LogCritical e)).

(* ================================================================== *)
(** ** The on-demand pipeline                                          *)
(* ================================================================== *)

Definition no_news_found : string := "😔 Новости не найдены".
Definition nothing_new : string := "🔄 Новых новостей нет".
Definition error_reply : string := "⚠️ Ошибка при получении новостей".

(** The notification of the on-demand pipeline. *)
Definition latest_message (translated_title url : pyval) : string :=
  "📰 *" ++ py_str translated_title ++ "*" ++ nl
  ++ "[Читать статью](" ++ py_str url ++ ")".

(** The body of the loop of [latest_news]. *)
Definition latest_step (w : world) (chat_id : Z) (a : article)
    (sent_articles : list string) : M (list string) :=
  title <- getitem (art_title a) ;;
  url <- getitem (art_url a) ;;
  let news_id := generate_news_id title url in
  found <- execute_select news_id ;;
  match found with
  | None =>
      translated_title <- translate_text w title ;;
      send_message w chat_id (latest_message translated_title url) ;;
      source <- source_name a ;;
      stamp <- getitem (art_publishedAt a) ;;
      published_at <- strptime stamp ;;
      execute_insert (mkRow news_id title translated_title url source
                            published_at) ;;
      ret (sent_articles ++ [news_id])%list
  | Some _ => ret sent_articles
  end.

(** The [try] block of [latest_news]. *)
Definition latest_news_try (w : world) (chat_id : Z) : M unit :=
  all <- fetch_bitcoin_news w ;;
  articles <- slice5 all ;;
  match articles with
  | [] => send_message w chat_id no_news_found
  | _ :: _ =>
      sent_articles <- for_each_acc articles [] (latest_step w chat_id) ;;
      match sent_articles with
      | [] => send_message w chat_id nothing_new
      | _ :: _ => ret tt
      end ;;
      conn_commit
  end.

Definition latest_news (w : world) (chat_id : Z) : M unit :=
  try_except (latest_news_try w chat_id)
    (fun e => logger (LogLatestError e) ;; send_message w chat_id error_reply).

(* ================================================================== *)
(** ** Process life cycle                                              *)
(* ================================================================== *)

(** The process stops and is started again on the same [news.db]. *)
Definition restart (st : state) : state :=
  mkState (startup (shutdown (db st))) (outbox st) (log st) (clock st).

(** The state of a first start, on a file without table. *)
Definition initial_state : state := mkState (startup None) [] [] 0.

(** What the program does to its state: a scheduled run, an on-demand
    run (for any chat), or a restart. *)
Inductive step (w : world) : state -> state -> Prop :=
  | step_scheduled chat_id st :
      step w st (snd (check_and_send_news w chat_id st))
  | step_latest chat_id st :
      step w st (snd (latest_news w chat_id st))
  | step_restart st :
      step w st (restart st).

Inductive reachable (w : world) : state -> Prop :=
  | reachable_initial : reachable w initial_state
  | reachable_step st st' : reachable w st -> step w st st' -> reachable w st'.

(* ================================================================== *)
(** ** Notions used to state the properties                            *)
(* ================================================================== *)

(** The fingerprints in the store. *)
Definition ids (d : database) : list string := map row_id (visible d).

(** The texts delivered to a chat. *)
Definition texts (st : state) : list string := map snd (outbox st).

(** [needle in hay] *)
Fixpoint contains (needle hay : string) : bool :=
  String.prefix needle hay
  || match hay with
     | EmptyString => false
     | String _ rest => contains needle rest
     end.

Fixpoint all_chars (p : ascii -> bool) (s : string) : bool :=
  match s with
  | EmptyString => true
  | String c r => p c && all_chars p r
  end.

Definition is_hex_char (c : ascii) : bool :=
  let n := nat_of_ascii c in
  ((48 <=? n) && (n <=? 57) || (97 <=? n) && (n <=? 102))%nat.

(** The text has the shape [DD.MM.YYYY HH:MM]. *)
Definition dd_mm_yyyy_hh_mm (s : string) : bool :=
  match s with
  | String d1 (String d2 (String p1 (String m1 (String m2 (String p2
    (String y1 (String y2 (String y3 (String y4 (String sp
    (String h1 (String h2 (String co (String n1 (String n2 EmptyString)))))))))))))))
    =>
      forallb Strptime.is_digit [d1; d2; m1; m2; y1; y2; y3; y4; h1; h2; n1; n2]
      && Ascii.eqb p1 "." && Ascii.eqb p2 "." && Ascii.eqb sp " "
      && Ascii.eqb co ":"
  | _ => false
  end.




(** What the first loop of the scheduled pipeline makes of a well-formed
    article. *)
Definition parsed (a : article) : option new_article :=
  match art_title a, art_url a, art_source a, art_publishedAt a with
  | Some title, Some url, Some (SourceObject (Some source)), Some (PStr stamp) =>
      match Strptime.parse stamp with
      | Some published_at =>
          Some (mkNew (generate_news_id title url) title url source
                      published_at)
      | None => None
      end
  | _, _, _, _ => None
  end.

(** The fingerprint is not in the store. *)
Definition unseen (d : database) (news_id : string) : bool :=
  match select_id d news_id with
  | None => true
  | Some _ => false
  end.

(** The well-formed articles of a batch that the store has not seen, in
    the order of the batch. *)
Fixpoint new_candidates (d : database) (l : list article) : list new_article :=
  match l with
  | [] => []
  | a :: rest =>
      match parsed a with
      | Some n =>
          if unseen d (new_id n) then n :: new_candidates d rest
          else new_candidates d rest
      | None => new_candidates d rest
      end
  end.

(** The list behind a fetched value. *)
Definition fetched_list (f : fetched) : list article :=
  match f with
  | FList l => l
  | FNone => []
  end.

(** Every run of [m] relates the state before to the state after. *)
Definition preserves (R : state -> state -> Prop) {A} (m : M A) : Prop :=
  forall st, R st (snd (m st)).

(** The store only grows: what was visible (and what was committed) is
    still there, unchanged and in place, in front of what was added; and
    fingerprints that were unique stay unique. *)
Definition store_grows (st st' : state) : Prop :=
  (exists added, visible (db st') = (visible (db st) ++ added)%list)
  /\ (exists added, committed (db st') = (committed (db st) ++ added)%list)
  /\ (NoDup (ids (db st)) -> NoDup (ids (db st'))).

(** The outbox only grows, by messages that satisfy [P]. *)
Definition outbox_adds (P : message -> Prop) (st st' : state) : Prop :=
  exists msgs, outbox st' = (outbox st ++ msgs)%list /\ Forall P msgs.

(** [m] is the scheduled notification of one of [news], sent to
    [chat_id], with the title as [translate_text] returned it. *)
Definition scheduled_item (w : world) (chat_id : Z) (news : list new_article)
    (m : message) : Prop :=
  exists n translated st_t,
    In n news
    /\ fst (translate_text w (new_title n) st_t) = Ok translated
    /\ m = (chat_id, scheduled_message translated n).

(** [m] is the on-demand notification of one of the articles [l], sent
    to [chat_id], with the title as [translate_text] returned it. *)
Definition latest_item (w : world) (chat_id : Z) (l : list article)
    (m : message) : Prop :=
  exists a title url translated st_t,
    In a l /\ art_title a = Some title /\ art_url a = Some url
    /\ fst (translate_text w title st_t) = Ok translated
    /\ m = (chat_id, latest_message translated url).



(** Only the log and the clock may differ. *)
Definition same_store_and_outbox (st st' : state) : Prop :=
  db st' = db st /\ outbox st' = outbox st.

(** Concrete articles and worlds for the examples. *)
Module Sample.
Definition chat : Z := 7%Z.

Definition coindesk : option source_value :=
  Some (SourceObject (Some (PStr "CoinDesk"))).

Definition a1 : article :=
  mkArticle (Some (PStr "Bitcoin hits 100k")) (Some (PStr "https://x.io/a"))
            coindesk (Some (PStr "2024-05-06T07:08:09Z")).

Definition a2 : article :=
  mkArticle (Some (PStr "BTC falls")) (Some (PStr "https://x.io/b"))
            coindesk (Some (PStr "2024-05-07T10:30:00Z")).

(** A timestamp with fractional seconds. *)
Definition bad_stamp : article :=
  mkArticle (Some (PStr "Halving is near")) (Some (PStr "https://x.io/d"))
            coindesk (Some (PStr "2024-05-09T11:00:00.000Z")).

(** An element without title. *)
Definition no_title : article :=
  mkArticle None (Some (PStr "https://x.io/e")) coindesk
            (Some (PStr "2024-05-09T12:00:00Z")).

Definition id1 : string := "43f602f6de85fb611136e95478ae9d33".
Definition id2 : string := "bc12c2a4e33d1984fe56b35951d9a68d".

(** A translator that answers with the text prefixed by "RU ". *)
Definition ru (s : string) : http_reply translate_json :=
  Response 200 (Some (TranslateObject (Some (PInt 200))
                        (Some (DataObject (Some (PStr ("RU " ++ s))))))).

Definition accept_all (n : nat) (chat_id : Z) (text : string) : bool := true.

(** Telegram refuses the call number [k] and accepts the others. *)
Definition refuse_call (k : nat) (n : nat) (chat_id : Z) (text : string)
    : bool := negb (Nat.eqb n k).

(** NewsAPI always answers with the same batch. *)
Definition world_of (batch : list article)
    (tg : nat -> Z -> string -> bool) : world :=
  mkWorld (fun _ => Response 200 (Some (NewsObject (Some (FList batch)))))
          (fun _ s => ru s) tg.

Definition scheduled_text1 : string :=
  "📰 *RU Bitcoin hits 100k*" ++ nl ++ "🔗 _Источник: CoinDesk_" ++ nl
  ++ "📆 _Дата: 06.05.2024 07:08_" ++ nl
  ++ "[Читать оригинал](https://x.io/a)".

Definition latest_text1 : string :=
  "📰 *RU Bitcoin hits 100k*" ++ nl ++ "[Читать статью](https://x.io/a)".

Definition latest_text2 : string :=
  "📰 *RU BTC falls*" ++ nl ++ "[Читать статью](https://x.io/b)".

Definition latest_text_bad : string :=
  "📰 *RU Halving is near*" ++ nl ++ "[Читать статью](https://x.io/d)".
End Sample.

(* ================================================================== *)
(** ** The scheduler, the command handlers and the process             *)
(* ================================================================== *)

Definition CHECK_INTERVAL : nat := 15.

(** A job of the job queue: [run_repeating(check_and_send_news,
    interval, first, chat_id)]. *)
Record job : Type := mkJob {
  job_interval : nat;       (* seconds *)
  job_first : nat;          (* seconds *)
  job_chat_id : Z
}.

(** The application: its job queue and the program state. *)
Record bot : Type := mkBot {
  jobs : list job;
  bot_state : state
}.

Definition start_reply : string :=
  "🔔 Бот активирован! Новости будут приходить каждые "
  ++ decimal CHECK_INTERVAL ++ " минут." ++ nl
  ++ "Используйте /latest для мгновенного получения новостей.".

(** The handler of /start: the job is registered, then the reply is
    sent. *)
Definition start (w : world) (chat_id : Z) (b : bot) : result unit * bot :=
  let queue := (jobs b ++ [mkJob (CHECK_INTERVAL * 60) 10 chat_id])%list in
  let (r, st') := send_message w chat_id start_reply (bot_state b) in
  (r, mkBot queue st').

(** What the application dispatches: the two commands, each from a chat,
    and the firing of the job at some position of the queue. *)
Inductive event : Type :=
  | CommandStart (chat_id : Z)
  | CommandLatest (chat_id : Z)
  | JobFires (position : nat).

(** One dispatch.  Handlers run one after the other; an exception that a
    handler lets escape is caught by the dispatcher, and what the handler
    did before stays. *)
Definition dispatch (w : world) (b : bot) (e : event) : bot :=
  match e with
  | CommandStart chat_id => snd (start w chat_id b)
  | CommandLatest chat_id =>
      mkBot (jobs b) (snd (latest_news w chat_id (bot_state b)))
  | JobFires position =>
      match nth_error (jobs b) position with
      | Some j =>
          mkBot (jobs b)
                (snd (check_and_send_news w (job_chat_id j) (bot_state b)))
      | None => b
      end
  end.

(** [app.run_polling()] over the events of one process life. *)
Definition run_polling (w : world) (events : list event) (b : bot) : bot :=
  fold_left (dispatch w) events b.

(** [os.getenv] *)
Definition environment : Type := string -> option string.

Definition required_vars : list string := ["TELEGRAM_TOKEN"; "NEWS_API_KEY"].

(** [[var for var in required_vars if not os.getenv(var)]]: a variable
    that is unset or empty. *)
Definition missing_vars (env : environment) : list string :=
  filter (fun var =>
            match env var with
            | Some value => String.eqb value ""
            | None => true
            end) required_vars.

(** What the main block logs. *)
Inductive main_log_entry : Type :=
  | LogMissingVars (vars : list string)   (* "Отсутствуют переменные: ..." *)
  | LogStarting                           (* "Запуск бота..." *)
  | LogFatal (e : exn)                    (* "Фатальная ошибка: ..." *)
  | LogConnectionClosed.                  (* "Соединение с БД закрыто" *)

(** How a process ends: its exit status, what the main block logged,
    the file [news.db] it leaves, and the application as it was at the
    end. *)
Record process_end : Type := mkEnd {
  exit_status : nat;
  main_log : list main_log_entry;
  file_after : db_file;
  bot_after : bot
}.

(** How the [try] of the main block ends: polling stops, building the
    application raises, or polling raises. *)
Inductive ending : Type :=
  | PollingStops
  | BuildRaises (e : exn)
  | PollingRaises (e : exn).

(** The module body and the main block.  [events] is what the
    application dispatches while it polls. *)
Definition main (env : environment) (w : world) (events : list event)
    (how : ending) (file : db_file) : process_end :=
  let b0 := mkBot [] (mkState (startup file) [] [] 0) in
  match missing_vars env with
  | _ :: _ =>
      (* exit(1), before the try: the connection is not closed in code *)
      mkEnd 1 [LogMissingVars (missing_vars env)]
            (create_table_if_not_exists file) b0
  | [] =>
      match how with
      | BuildRaises e =>
          mkEnd 0 [LogFatal e; LogConnectionClosed]
                (shutdown (db (bot_state b0))) b0
      | PollingStops =>
          let b := run_polling w events b0 in
          mkEnd 0 [LogStarting; LogConnectionClosed]
                (shutdown (db (bot_state b))) b
      | PollingRaises e =>
          let b := run_polling w events b0 in
          mkEnd 0 [LogStarting; LogFatal e; LogConnectionClosed]
                (shutdown (db (bot_state b))) b
      end
  end.

(* ================================================================== *)
(** ** Notions used to state further properties                        *)
(* ================================================================== *)


(** A delivery of the on-demand pipeline: the title and the url of the
    article and the title as it was translated. *)
Record delivery : Type := mkDelivery {
  del_title : pyval;
  del_url : pyval;
  del_translated : pyval
}.

Definition delivery_id (d : delivery) : string :=
  generate_news_id (del_title d) (del_url d).

Definition delivery_message (chat_id : Z) (d : delivery) : message :=
  (chat_id, latest_message (del_translated d) (del_url d)).

(** [m] is one of the three notices of [latest_news], sent to
    [chat_id]. *)
Definition is_notice (chat_id : Z) (m : message) : Prop :=
  m = (chat_id, no_news_found) \/ m = (chat_id, nothing_new)
  \/ m = (chat_id, error_reply).

(** The committed rows are the same. *)
Definition same_committed (st st' : state) : Prop :=
  committed (db st') = committed (db st).

(** The store is as it was, or nothing is left uncommitted. *)
Definition nothing_pending (st st' : state) : Prop :=
  db st' = db st \/ pending (db st') = [].

(** The text that the format ['%Y-%m-%dT%H:%M:%SZ'] stands for, for a
    timestamp with a four-digit year: what NewsAPI sends. *)
Definition newsapi_timestamp (d : datetime) : string :=
  decimal (year d) ++ "-" ++ pad2 (month d) ++ "-" ++ pad2 (day d) ++ "T"
  ++ pad2 (hour d) ++ ":" ++ pad2 (minute d) ++ ":" ++ pad2 (second d) ++ "Z".

(** The chats from which a command came. *)
Fixpoint commanders (events : list event) : list Z :=
  match events with
  | [] => []
  | CommandStart c :: rest => c :: commanders rest
  | CommandLatest c :: rest => c :: commanders rest
  | JobFires _ :: rest => commanders rest
  end.

(** The chats that sent /start, one entry per command. *)
Fixpoint starters (events : list event) : list Z :=
  match events with
  | [] => []
  | CommandStart c :: rest => c :: starters rest
  | _ :: rest => starters rest
  end.

(* ================================================================== *)
(** * Properties                                                       *)
(* ================================================================== *)

Local Open Scope list_scope.

Example md5_empty : MD5.hexdigest (bytes_of "") = "d41d8cd98f00b204e9800998ecf8427e".
Proof. vm_compute. reflexivity. Qed.

Example md5_abc : MD5.hexdigest (bytes_of "abc") = "900150983cd24fb0d6963f7d28e17f72".
Proof. vm_compute. reflexivity. Qed.

Example md5_56 :
  MD5.hexdigest (repeat 97%Z 56) = "3b0c8ac703f828b04c6c197006d17218".
Proof. vm_compute. reflexivity. Qed.

Example md5_64 :
  MD5.hexdigest (repeat 97%Z 64) = "014842d480b571495a4a0363793f7367".
Proof. vm_compute. reflexivity. Qed.

Example py_str_examples :
  py_str (PInt (-42)) = "-42" /\ py_str (PInt 0) = "0"
  /\ py_str PNone = "None"
  /\ py_str (PStr "📰")
     = String "240" (String "159" (String "147" (String "176" ""))).
Proof. vm_compute. auto. Qed.

Example strptime_examples :
  Strptime.parse "2024-01-02T03:04:05Z" = Some (mkDatetime 2024 1 2 3 4 5)
  /\ Strptime.parse "2024-1-2T3:4:5Z" = Some (mkDatetime 2024 1 2 3 4 5)
  /\ Strptime.parse "2024-01-02t03:04:05z" = Some (mkDatetime 2024 1 2 3 4 5)
  /\ Strptime.parse "2024-01- 2T03:04:05Z" = Some (mkDatetime 2024 1 2 3 4 5)
  /\ Strptime.parse "0999-01-02T03:04:05Z" = Some (mkDatetime 999 1 2 3 4 5)
  /\ Strptime.parse "2000-02-29T00:00:00Z" = Some (mkDatetime 2000 2 29 0 0 0)
  /\ map Strptime.parse
       ["2024-02-30T03:04:05Z"; "2024-01-02T03:04:60Z"; "2024-01-02T03:04:05.000Z";
        "0000-01-02T03:04:05Z"; "2024-01-02T03:04:05Z "; "2024-13-02T03:04:05Z";
        "2024-01-02T24:04:05Z"; "2024-01-02T03:04:61Z"; "2024-00-02T03:04:05Z";
        "2024-01-00T03:04:05Z"; "1900-02-29T00:00:00Z"; ""]
     = repeat None 12
  /\ strftime (mkDatetime 2024 1 2 3 4 5) = "02.01.2024 03:04"
  /\ strftime (mkDatetime 1999 12 31 23 59 0) = "31.12.1999 23:59".
Proof. vm_compute. repeat split. Qed.

Example strip_examples :
  map strip_is_empty
      [""; " "; String "009" (String "010" " "); " a "; "Bitcoin";
       String "194" (String "160" ""); String "226" (String "128" (String "137" " "));
       String "227" (String "128" (String "128" "")); String "194" (String "161" "");
       String "226" (String "128" (String "139" ""))]
  = [true; true; true; false; false; true; true; true; false; false].
Proof. vm_compute. reflexivity. Qed.

(* ------------------------------------------------------------------ *)
(** ** Fingerprints                                                    *)
(* ------------------------------------------------------------------ *)

Lemma string_length_append (a b : string) :
  String.length (a ++ b)%string = String.length a + String.length b.
Proof. induction a as [|c a IH]; simpl; [reflexivity | now rewrite IH]. Qed.

Lemma all_chars_append p (a b : string) :
  all_chars p (a ++ b)%string = all_chars p a && all_chars p b.
Proof.
  induction a as [|c a IH]; simpl; [reflexivity|].
  now rewrite IH, andb_assoc.
Qed.

Lemma hex_digit_is_hex (x : Z) :
  is_hex_char (MD5.hex_digit (x mod 16)) = true.
Proof.
  assert (H : (0 <= x mod 16 < 16)%Z) by (apply Z.mod_pos_bound; lia).
  set (y := (x mod 16)%Z) in *.
  assert (E : In y (map Z.of_nat (seq 0 16))).
  { replace y with (Z.of_nat (Z.to_nat y)) by lia.
    apply in_map, in_seq. lia. }
  simpl in E.
  repeat (destruct E as [<- | E]; [reflexivity|]). contradiction.
Qed.

Lemma hex_byte_spec (b : Z) :
  String.length (MD5.hex_byte b) = 2
  /\ all_chars is_hex_char (MD5.hex_byte b) = true.
Proof.
  unfold MD5.hex_byte. split; [reflexivity|].
  simpl. now rewrite !hex_digit_is_hex.
Qed.

Lemma hex_word_spec (x : Z) :
  String.length (MD5.hex_word x) = 8
  /\ all_chars is_hex_char (MD5.hex_word x) = true.
Proof.
  unfold MD5.hex_word. cbn [MD5.le_bytes].
  rewrite !string_length_append, !all_chars_append.
  repeat match goal with
         | |- context [MD5.hex_byte ?b] =>
             let H := fresh in
             destruct (hex_byte_spec b) as [-> H]; rewrite H; clear H
         end.
  split; reflexivity.
Qed.

Lemma hexdigest_spec (msg : list Z) :
  String.length (MD5.hexdigest msg) = 32
  /\ all_chars is_hex_char (MD5.hexdigest msg) = true.
Proof.
  unfold MD5.hexdigest. destruct (MD5.digest msg) as [[[a b] c] d].
  rewrite !string_length_append, !all_chars_append.
  repeat match goal with
         | |- context [MD5.hex_word ?b] =>
             let H := fresh in
             destruct (hex_word_spec b) as [-> H]; rewrite H; clear H
         end.
  split; reflexivity.
Qed.

(** C3, as stated, fails: two different (title, url) pairs with the same
    concatenation get the same fingerprint, so the fingerprint is not
    injective on pairs. *)
Theorem generate_news_id_not_injective :
  ~ (forall t1 u1 t2 u2 : pyval,
       (t1, u1) <> (t2, u2) ->
       generate_news_id t1 u1 <> generate_news_id t2 u2).
Proof.
  intros H.
  apply (H (PStr "Bitcoin ETF") (PStr "https://x.io/a")
           (PStr "Bitcoin ETFhttps") (PStr "://x.io/a")).
  - discriminate.
  - unfold generate_news_id. f_equal.
Qed.

(** C3, amended: [generate_news_id] is a function of the concatenation of
    the rendered title and url: pairs with the same concatenation (equal
    pairs among them) get the same fingerprint, and every fingerprint is
    32 lower-case hexadecimal digits. *)
Theorem generate_news_id_deterministic (t1 u1 t2 u2 : pyval) :
  (py_str t1 ++ py_str u1 = py_str t2 ++ py_str u2)%string ->
  generate_news_id t1 u1 = generate_news_id t2 u2
  /\ String.length (generate_news_id t1 u1) = 32
  /\ all_chars is_hex_char (generate_news_id t1 u1) = true.
Proof.
  intros E. unfold generate_news_id. rewrite E.
  split; [reflexivity | apply hexdigest_spec].
Qed.

Lemma generate_news_id_deterministic_witness :
  (py_str (PStr "Bitcoin hits 100k") ++ py_str (PStr "https://x.io/a")
   = py_str (PStr "Bitcoin hits 100k") ++ py_str (PStr "https://x.io/a"))%string
  /\ String.length
       (generate_news_id (PStr "Bitcoin hits 100k") (PStr "https://x.io/a"))
     = 32.
Proof.
  split; [reflexivity|].
  apply (generate_news_id_deterministic
           (PStr "Bitcoin hits 100k") (PStr "https://x.io/a")
           (PStr "Bitcoin hits 100k") (PStr "https://x.io/a") eq_refl).
Defined.

(* ------------------------------------------------------------------ *)
(** ** The pipelines on concrete batches                               *)
(* ------------------------------------------------------------------ *)

Example scheduled_then_repeat :
  let w := Sample.world_of [Sample.a1; Sample.a2] Sample.accept_all in
  let st1 := snd (check_and_send_news w Sample.chat initial_state) in
  let st2 := snd (check_and_send_news w Sample.chat st1) in
  List.length (texts st1) = 2 /\ ids (db st1) = [Sample.id1; Sample.id2]
  /\ pending (db st1) = []
  /\ texts st2 = texts st1 /\ db st2 = db st1.
Proof. vm_compute. repeat split. Qed.

(** C1 on the code: the same batch, holding one article whose timestamp
    does not parse, is fetched by two on-demand runs in sequence.  The
    first run delivers the article and records nothing, because the
    timestamp is parsed after the delivery; the second run delivers the
    same article again. *)
Theorem latest_news_redelivers :
  let w := Sample.world_of [Sample.bad_stamp] Sample.accept_all in
  let st1 := snd (latest_news w Sample.chat initial_state) in
  let st2 := snd (latest_news w Sample.chat st1) in
  texts st1 = [Sample.latest_text_bad; error_reply]
  /\ ids (db st1) = []
  /\ texts st2 = texts st1 ++ [Sample.latest_text_bad; error_reply]
  /\ ids (db st2) = [].
Proof. vm_compute. repeat split. Qed.

(** C4 on the code: a batch of the scheduled pipeline holds the same
    article twice.  Both copies pass the filter, because the store is only
    written in the second loop; the article is delivered twice in one run,
    the second INSERT raises and ends the run before the third article. *)
Theorem check_and_send_news_delivers_twice :
  let w := Sample.world_of [Sample.a1; Sample.a1; Sample.a2]
                           Sample.accept_all in
  let r := check_and_send_news w Sample.chat initial_state in
  texts (snd r) = [Sample.scheduled_text1; Sample.scheduled_text1]
  /\ ids (db (snd r)) = [Sample.id1]
  /\ log (snd r) = [LogCritical IntegrityError]
  /\ fst r = Ok tt.
Proof. vm_compute. repeat split. Qed.

(** ... while the on-demand pipeline, which checks and inserts article by
    article, delivers it once. *)
Example latest_news_delivers_once :
  let w := Sample.world_of [Sample.a1; Sample.a1; Sample.a2]
                           Sample.accept_all in
  let r := latest_news w Sample.chat initial_state in
  texts (snd r) = [Sample.latest_text1; Sample.latest_text2]
  /\ ids (db (snd r)) = [Sample.id1; Sample.id2]
  /\ pending (db (snd r)) = [].
Proof. vm_compute. repeat split. Qed.

(** C5 on the code: an on-demand run delivers and inserts a first article
    and then raises on the second one.  The handler does not commit: the
    row of the delivered article is left in the open transaction, a
    restart loses it, and the next run delivers the article again. *)
Theorem latest_news_insert_not_durable :
  let w := Sample.world_of [Sample.a1; Sample.bad_stamp] Sample.accept_all in
  let st1 := snd (latest_news w Sample.chat initial_state) in
  let st2 := snd (check_and_send_news w Sample.chat (restart st1)) in
  texts st1 = [Sample.latest_text1; Sample.latest_text_bad; error_reply]
  /\ map row_id (pending (db st1)) = [Sample.id1]
  /\ committed (db st1) = []
  /\ shutdown (db st1) = Some []
  /\ texts st2 = texts st1 ++ [Sample.scheduled_text1].
Proof. vm_compute. repeat split. Qed.

(** ... while the scheduled pipeline commits after each INSERT: the row
    written before a failure survives the restart. *)
Example check_and_send_news_insert_durable :
  let w := Sample.world_of [Sample.a1; Sample.a2] (Sample.refuse_call 4) in
  let st1 := snd (check_and_send_news w Sample.chat initial_state) in
  texts st1 = [Sample.scheduled_text1]
  /\ log st1 = [LogCritical TelegramError]
  /\ map row_id (committed (db st1)) = [Sample.id1]
  /\ ids (db (restart st1)) = [Sample.id1].
Proof. vm_compute. repeat split. Qed.


(** C6, as stated, fails: the notification of the on-demand pipeline
    holds the translated title and the link, but neither the source name
    nor the publish date. *)
Theorem latest_message_lacks_source_and_date :
  let w := Sample.world_of [Sample.a1] Sample.accept_all in
  let st := snd (latest_news w Sample.chat initial_state) in
  texts st = [Sample.latest_text1]
  /\ contains "CoinDesk" Sample.latest_text1 = false
  /\ contains "06.05.2024 07:08" Sample.latest_text1 = false
  /\ contains "RU Bitcoin hits 100k" Sample.latest_text1 = true
  /\ contains "(https://x.io/a)" Sample.latest_text1 = true.
Proof. vm_compute. repeat split. Qed.

(** C9, as stated, fails: the outcomes are not exclusive.  A run that
    meets a malformed article after a delivery replies with the formatted
    items and then with the error message. *)
Theorem latest_news_items_and_error :
  let w := Sample.world_of [Sample.a1; Sample.no_title] Sample.accept_all in
  let r := latest_news w Sample.chat initial_state in
  fst r = Ok tt
  /\ texts (snd r) = [Sample.latest_text1; error_reply].
Proof. vm_compute. repeat split. Qed.

(* ------------------------------------------------------------------ *)
(** ** Relations that every run preserves                              *)
(* ------------------------------------------------------------------ *)

Section Preservation.
Variable R : state -> state -> Prop.
Hypothesis R_refl : forall st, R st st.
Hypothesis R_trans : forall a b c, R a b -> R b c -> R a c.

Lemma preserves_ret {A} (a : A) : preserves R (ret a).
Proof. intros st. apply R_refl. Qed.

Lemma preserves_raise {A} (e : exn) : preserves R (@raise A e).
Proof. intros st. apply R_refl. Qed.

Lemma preserves_bind {A B} (m : M A) (f : A -> M B) :
  preserves R m -> (forall a, preserves R (f a)) -> preserves R (bind m f).
Proof.
  intros Hm Hf st. unfold bind. specialize (Hm st).
  destruct (m st) as [[a | e] st1]; simpl in *; [| exact Hm].
  eapply R_trans; [exact Hm | apply Hf].
Qed.

Lemma preserves_try {A} (m : M A) (h : exn -> M A) :
  preserves R m -> (forall e, preserves R (h e)) ->
  preserves R (try_except m h).
Proof.
  intros Hm Hh st. unfold try_except. specialize (Hm st).
  destruct (m st) as [[a | e] st1]; simpl in *; [exact Hm |].
  eapply R_trans; [exact Hm | apply Hh].
Qed.

Lemma preserves_for_each {A} (l : list A) (body : A -> M unit) :
  (forall x, preserves R (body x)) -> preserves R (for_each l body).
Proof.
  intros Hb. induction l as [| x l IH]; simpl.
  - apply preserves_ret.
  - apply preserves_bind; auto.
Qed.

Lemma preserves_for_each_acc {A S} (l : list A) (body : A -> S -> M S) :
  (forall x acc, preserves R (body x acc)) ->
  forall acc, preserves R (for_each_acc l acc body).
Proof.
  intros Hb. induction l as [| x l IH]; intros acc; simpl.
  - apply preserves_ret.
  - apply preserves_bind; auto.
Qed.

Lemma preserves_for_each_in {A} (l : list A) (body : A -> M unit) :
  (forall x, In x l -> preserves R (body x)) -> preserves R (for_each l body).
Proof.
  induction l as [| x l IH]; intros Hb; simpl.
  - apply preserves_ret.
  - apply preserves_bind; [apply Hb; now left |].
    intros _. apply IH. intros y Hy. apply Hb. now right.
Qed.

Lemma preserves_getitem {A} (member : option A) :
  preserves R (getitem member).
Proof. destruct member; [apply preserves_ret | apply preserves_raise]. Qed.

Lemma preserves_get_db : preserves R get_db.
Proof. intros st. apply R_refl. Qed.

Lemma preserves_raise_for_status status :
  preserves R (raise_for_status status).
Proof.
  unfold raise_for_status.
  destruct (_ && _); [apply preserves_raise | apply preserves_ret].
Qed.

Lemma preserves_response_json {B} (body : option B) :
  preserves R (response_json body).
Proof. destruct body; [apply preserves_ret | apply preserves_raise]. Qed.

Lemma preserves_strptime v : preserves R (strptime v).
Proof.
  destruct v as [| z | s]; simpl; try apply preserves_raise.
  destruct (Strptime.parse s); [apply preserves_ret | apply preserves_raise].
Qed.

Lemma preserves_source_name a : preserves R (source_name a).
Proof.
  apply preserves_bind; [apply preserves_getitem |].
  intros [v | name]; [apply preserves_raise | apply preserves_getitem].
Qed.

Lemma preserves_execute_select news_id :
  preserves R (execute_select news_id).
Proof.
  apply preserves_bind; [apply preserves_get_db | intros; apply preserves_ret].
Qed.

Lemma preserves_iterate f : preserves R (iterate f).
Proof. destruct f; [apply preserves_raise | apply preserves_ret]. Qed.

Lemma preserves_slice5 f : preserves R (slice5 f).
Proof. destruct f; [apply preserves_raise | apply preserves_ret]. Qed.

(** The state changes of the log and of the clock. *)
Hypothesis R_log : forall st e,
  R st (mkState (db st) (outbox st) (log st ++ [e]) (clock st)).
Hypothesis R_tick : forall st,
  R st (mkState (db st) (outbox st) (log st) (S (clock st))).

Lemma preserves_logger e : preserves R (logger e).
Proof. intros st. apply R_log. Qed.

Lemma preserves_tick : preserves R tick.
Proof. intros st. apply R_tick. Qed.

Lemma preserves_requests_get {B} (api : nat -> http_reply B) :
  preserves R (requests_get api).
Proof.
  apply preserves_bind; [apply preserves_tick |].
  intros n. destruct (api n); [apply preserves_raise | apply preserves_ret].
Qed.

Lemma preserves_translate_text w text : preserves R (translate_text w text).
Proof.
  destruct text as [| z | s]; simpl; try apply preserves_raise.
  destruct (strip_is_empty s); [apply preserves_ret |].
  apply preserves_try.
  - apply preserves_bind; [apply preserves_requests_get | intros response].
    apply preserves_bind; [apply preserves_raise_for_status | intros _].
    apply preserves_bind; [apply preserves_response_json | intros result].
    destruct result as [| status data]; [apply preserves_raise |].
    apply preserves_bind; [apply preserves_getitem | intros v].
    destruct (py_eq_int v 200); [| apply preserves_ret].
    apply preserves_bind; [apply preserves_getitem | intros d].
    destruct d; [apply preserves_raise | apply preserves_getitem].
  - intros e. apply preserves_bind; [apply preserves_logger |].
    intros _. apply preserves_ret.
Qed.

Lemma preserves_fetch_bitcoin_news w : preserves R (fetch_bitcoin_news w).
Proof.
  apply preserves_try.
  - apply preserves_bind; [apply preserves_requests_get | intros response].
    apply preserves_bind; [apply preserves_raise_for_status | intros _].
    apply preserves_bind; [apply preserves_response_json | intros body].
    destruct body as [| [articles |]];
      [apply preserves_raise | apply preserves_ret | apply preserves_ret].
  - intros e. apply preserves_bind; [apply preserves_logger |].
    intros _. apply preserves_ret.
Qed.

Lemma preserves_identify a acc : preserves R (identify a acc).
Proof.
  unfold identify.
  apply preserves_bind; [apply preserves_getitem | intros title].
  apply preserves_bind; [apply preserves_getitem | intros url].
  apply preserves_bind; [apply preserves_source_name | intros source].
  apply preserves_bind; [apply preserves_getitem | intros stamp].
  apply preserves_bind; [apply preserves_strptime | intros published_at].
  apply preserves_bind; [apply preserves_execute_select | intros found].
  destruct found; apply preserves_ret.
Qed.

Lemma preserves_collect_new l : preserves R (collect_new l).
Proof.
  apply preserves_for_each_acc. intros a acc.
  apply preserves_try; [apply preserves_identify |].
  intros e. apply preserves_bind; [apply preserves_logger |].
  intros _. apply preserves_ret.
Qed.

(** The state changes of a delivery, of an INSERT and of a commit. *)
Hypothesis R_send : forall st chat_id text,
  R st (mkState (db st) (outbox st ++ [(chat_id, text)]) (log st) (clock st)).
Hypothesis R_insert : forall st r d',
  insert_row (db st) r = Some d' ->
  R st (mkState d' (outbox st) (log st) (clock st)).
Hypothesis R_commit : forall st,
  R st (mkState (commit_db (db st)) (outbox st) (log st) (clock st)).

Lemma preserves_send_message w chat_id text :
  preserves R (send_message w chat_id text).
Proof.
  apply preserves_bind; [apply preserves_tick |].
  intros n. destruct (telegram w n chat_id text);
    [intros st; apply R_send | apply preserves_raise].
Qed.

Lemma preserves_execute_insert r : preserves R (execute_insert r).
Proof.
  intros st. unfold execute_insert, bind, get_db.
  destruct (insert_row (db st) r) as [d' |] eqn:E; simpl.
  - now apply R_insert with (r := r).
  - apply R_refl.
Qed.

Lemma preserves_conn_commit : preserves R conn_commit.
Proof. intros st. apply R_commit. Qed.

Lemma preserves_deliver w chat_id a : preserves R (deliver w chat_id a).
Proof.
  unfold deliver.
  apply preserves_bind; [apply preserves_translate_text | intros tt].
  apply preserves_bind; [apply preserves_send_message | intros _].
  apply preserves_bind; [apply preserves_execute_insert | intros _].
  apply preserves_conn_commit.
Qed.

Lemma preserves_check_and_send_news w chat_id :
  preserves R (check_and_send_news w chat_id).
Proof.
  apply preserves_try; [| intros e; apply preserves_logger].
  apply preserves_bind; [apply preserves_fetch_bitcoin_news | intros f].
  destruct (falsy f); [apply preserves_logger |].
  apply preserves_bind; [apply preserves_iterate | intros l].
  apply preserves_bind; [apply preserves_collect_new | intros news].
  apply preserves_for_each. intros a. apply preserves_deliver.
Qed.

Lemma preserves_latest_step w chat_id a sent :
  preserves R (latest_step w chat_id a sent).
Proof.
  unfold latest_step.
  apply preserves_bind; [apply preserves_getitem | intros title].
  apply preserves_bind; [apply preserves_getitem | intros url].
  apply preserves_bind; [apply preserves_execute_select | intros found].
  destruct found; [apply preserves_ret |].
  apply preserves_bind; [apply preserves_translate_text | intros tt].
  apply preserves_bind; [apply preserves_send_message | intros _].
  apply preserves_bind; [apply preserves_source_name | intros source].
  apply preserves_bind; [apply preserves_getitem | intros stamp].
  apply preserves_bind; [apply preserves_strptime | intros published_at].
  apply preserves_bind; [apply preserves_execute_insert | intros _].
  apply preserves_ret.
Qed.

Lemma preserves_latest_news w chat_id :
  preserves R (latest_news w chat_id).
Proof.
  apply preserves_try.
  - apply preserves_bind; [apply preserves_fetch_bitcoin_news | intros f].
    apply preserves_bind; [apply preserves_slice5 | intros l].
    destruct l as [| a l]; [apply preserves_send_message |].
    apply preserves_bind.
    + apply preserves_for_each_acc. intros. apply preserves_latest_step.
    + intros sent. apply preserves_bind; [| intros _; apply preserves_conn_commit].
      destruct sent; [apply preserves_send_message | apply preserves_ret].
  - intros e. apply preserves_bind; [apply preserves_logger |].
    intros _. apply preserves_send_message.
Qed.
End Preservation.

(* ------------------------------------------------------------------ *)
(** ** The dedup store                                                 *)
(* ------------------------------------------------------------------ *)

Lemma store_grows_refl st : store_grows st st.
Proof.
  repeat split; try (exists []; now rewrite app_nil_r). auto.
Qed.

Lemma store_grows_trans a b c :
  store_grows a b -> store_grows b c -> store_grows a c.
Proof.
  intros ([x Hx] & [y Hy] & Hn) ([x' Hx'] & [y' Hy'] & Hn').
  repeat split.
  - exists (x ++ x'). now rewrite Hx', Hx, app_assoc.
  - exists (y ++ y'). now rewrite Hy', Hy, app_assoc.
  - auto.
Qed.

Lemma store_grows_same_db st st' : db st' = db st -> store_grows st st'.
Proof. intros E. unfold store_grows. rewrite E. apply store_grows_refl. Qed.

Lemma select_id_none d news_id :
  select_id d news_id = None -> ~ In news_id (ids d).
Proof.
  unfold select_id, ids. intros H Hin.
  destruct (find _ (visible d)) as [r |] eqn:F; [discriminate |].
  apply in_map_iff in Hin. destruct Hin as (r & <- & Hr).
  apply (find_none _ _ F) in Hr. now rewrite String.eqb_refl in Hr.
Qed.


Lemma insert_row_some d r d' :
  insert_row d r = Some d' ->
  ~ In (row_id r) (ids d)
  /\ committed d' = committed d /\ pending d' = pending d ++ [r].
Proof.
  unfold insert_row. destruct (select_id d (row_id r)) eqn:E; [discriminate |].
  intros [= <-]. split; [now apply select_id_none | split; reflexivity].
Qed.

Lemma store_grows_insert st r d' :
  insert_row (db st) r = Some d' ->
  store_grows st (mkState d' (outbox st) (log st) (clock st)).
Proof.
  intros H. apply insert_row_some in H. destruct H as (Hnot & Hc & Hp).
  unfold store_grows, ids, visible in *. simpl. rewrite Hc, Hp.
  repeat split.
  - exists [r]. now rewrite app_assoc.
  - exists []. now rewrite app_nil_r.
  - intros Hn. rewrite app_assoc, map_app. simpl.
    apply NoDup_app; [exact Hn | constructor; [intros [] | constructor] |].
    intros x Hx [<- | []]. contradiction.
Qed.

Lemma store_grows_commit st :
  store_grows st (mkState (commit_db (db st)) (outbox st) (log st) (clock st)).
Proof.
  unfold store_grows, ids, visible. simpl. rewrite app_nil_r.
  repeat split.
  - exists []. now rewrite app_nil_r.
  - now exists (pending (db st)).
  - auto.
Qed.

Lemma check_and_send_news_grows w chat_id :
  preserves store_grows (check_and_send_news w chat_id).
Proof.
  apply (preserves_check_and_send_news store_grows
           store_grows_refl store_grows_trans);
    first [ exact store_grows_insert | exact store_grows_commit
          | intros; now apply store_grows_same_db ].
Qed.

Lemma latest_news_grows w chat_id :
  preserves store_grows (latest_news w chat_id).
Proof.
  apply (preserves_latest_news store_grows
           store_grows_refl store_grows_trans);
    first [ exact store_grows_insert | exact store_grows_commit
          | intros; now apply store_grows_same_db ].
Qed.

Lemma restart_keeps_committed st :
  committed (db (restart st)) = committed (db st)
  /\ pending (db (restart st)) = []
  /\ (NoDup (ids (db st)) -> NoDup (ids (db (restart st)))).
Proof.
  repeat split. unfold ids, visible. simpl. rewrite app_nil_r, map_app.
  apply NoDup_app_remove_r.
Qed.

Lemma step_unique w st st' :
  step w st st' -> NoDup (ids (db st)) -> NoDup (ids (db st')).
Proof.
  intros [chat_id s | chat_id s | s].
  - apply (check_and_send_news_grows w chat_id s).
  - apply (latest_news_grows w chat_id s).
  - apply restart_keeps_committed.
Qed.

Lemma reachable_unique w st : reachable w st -> NoDup (ids (db st)).
Proof.
  induction 1 as [| st st' _ IH Hstep].
  - constructor.
  - now apply (step_unique w st st').
Qed.

Lemma step_keeps_committed w st st' :
  step w st st' ->
  exists added, committed (db st') = committed (db st) ++ added.
Proof.
  intros [chat_id s | chat_id s | s].
  - apply (check_and_send_news_grows w chat_id s).
  - apply (latest_news_grows w chat_id s).
  - exists []. simpl. now rewrite app_nil_r.
Qed.

(** C10: in every reachable state each fingerprint is in at most one
    record; a run of either pipeline leaves every record that the
    connection sees unchanged and in place and only adds records behind
    them; no step (a run or a restart) changes or removes a committed
    record; table creation at startup is idempotent and keeps the rows of
    an existing table. *)
Theorem dedup_store_insert_only (w : world) (st : state) :
  reachable w st ->
  NoDup (ids (db st))
  /\ (forall chat_id, exists added,
        visible (db (snd (check_and_send_news w chat_id st)))
        = visible (db st) ++ added)
  /\ (forall chat_id, exists added,
        visible (db (snd (latest_news w chat_id st)))
        = visible (db st) ++ added)
  /\ (forall st', step w st st' ->
        NoDup (ids (db st'))
        /\ exists added, committed (db st') = committed (db st) ++ added)
  /\ (forall f, create_table_if_not_exists (create_table_if_not_exists f)
                = create_table_if_not_exists f)
  /\ (forall rows, create_table_if_not_exists (Some rows) = Some rows)
  /\ (forall rows, visible (startup (Some rows)) = rows).
Proof.
  intros Hr. pose proof (reachable_unique w st Hr) as Hn.
  split; [exact Hn |].
  split; [intros c; apply (check_and_send_news_grows w c st) |].
  split; [intros c; apply (latest_news_grows w c st) |].
  split.
  { intros st' Hs. split;
      [now apply (step_unique w st st') | now apply (step_keeps_committed w)]. }
  split; [intros [rows |]; reflexivity |].
  split; [reflexivity |].
  intros rows. unfold visible. simpl. apply app_nil_r.
Qed.

Lemma dedup_store_insert_only_witness :
  let w := Sample.world_of [Sample.a1; Sample.a1; Sample.a2]
                           Sample.accept_all in
  let st := snd (check_and_send_news w Sample.chat initial_state) in
  reachable w st /\ NoDup (ids (db st)).
Proof.
  intros w st.
  assert (H : reachable w st).
  { apply reachable_step with (st := initial_state).
    - apply reachable_initial.
    - exact (step_scheduled w Sample.chat initial_state). }
  split; [exact H |].
  exact (proj1 (dedup_store_insert_only w st H)).
Defined.

(* ------------------------------------------------------------------ *)
(** ** The translator and the fetcher never fail their caller          *)
(* ------------------------------------------------------------------ *)

Lemma same_store_and_outbox_refl st : same_store_and_outbox st st.
Proof. split; reflexivity. Qed.

Lemma same_store_and_outbox_trans a b c :
  same_store_and_outbox a b -> same_store_and_outbox b c ->
  same_store_and_outbox a c.
Proof. intros [H1 H2] [H3 H4]. split; congruence. Qed.

Lemma translate_text_frame w text :
  preserves same_store_and_outbox (translate_text w text).
Proof.
  apply (preserves_translate_text same_store_and_outbox
           same_store_and_outbox_refl same_store_and_outbox_trans);
    intros; split; reflexivity.
Qed.

Lemma fetch_bitcoin_news_frame w :
  preserves same_store_and_outbox (fetch_bitcoin_news w).
Proof.
  apply (preserves_fetch_bitcoin_news same_store_and_outbox
           same_store_and_outbox_refl same_store_and_outbox_trans);
    intros; split; reflexivity.
Qed.

(** A [try] whose handler returns does not raise. *)
Lemma try_except_returns {A} (m : M A) (h : exn -> M A) st :
  (forall e st1, exists a, fst (h e st1) = Ok a) ->
  exists a, fst (try_except m h st) = Ok a.
Proof.
  intros Hh. unfold try_except.
  destruct (m st) as [[a | e] st1]; [now exists a | apply Hh].
Qed.


Lemma fetch_bitcoin_news_returns w st :
  exists v, fst (fetch_bitcoin_news w st) = Ok v.
Proof. apply try_except_returns. intros e st1. now eexists. Qed.

Ltac run_monad :=
  cbv beta iota zeta delta
    [try_except bind requests_get tick raise_for_status response_json
     getitem logger ret raise send_message get_db put_db execute_select
     execute_insert conn_commit];
  simpl.






(* ------------------------------------------------------------------ *)
(** ** The first loop of the scheduled pipeline                        *)
(* ------------------------------------------------------------------ *)


(** One turn of the loop: a malformed article raises inside the [try] and
    leaves [new_articles] as it is; a well-formed one is appended unless
    the store has its fingerprint.  Only the log changes. *)
Lemma identify_try_spec a acc st :
  exists lg,
    try_except (identify a acc)
      (fun e => logger (LogArticleError e) ;; ret acc)%monad st
    = (Ok (acc ++ new_candidates (db st) [a]),
       mkState (db st) (outbox st) (log st ++ lg) (clock st)).
Proof.
  unfold identify, source_name, strptime, parsed, new_candidates, parsed,
    unseen.
  destruct st as [d o lg0 c]. simpl.
  destruct (art_title a) as [title |]; run_monad;
    [| exists [LogArticleError KeyError]; now rewrite app_nil_r].
  destruct (art_url a) as [url |]; run_monad;
    [| exists [LogArticleError KeyError]; now rewrite app_nil_r].
  destruct (art_source a) as [[v | [source |]] |]; run_monad;
    try (exists [LogArticleError KeyError]; now rewrite app_nil_r);
    try (exists [LogArticleError TypeError]; now rewrite app_nil_r).
  destruct (art_publishedAt a) as [[| z | stamp] |]; run_monad;
    try (exists [LogArticleError KeyError]; now rewrite app_nil_r);
    try (exists [LogArticleError TypeError]; now rewrite app_nil_r).
  destruct (Strptime.parse stamp) as [published_at |]; run_monad;
    [| exists [LogArticleError ValueError]; now rewrite app_nil_r].
  destruct (select_id d (generate_news_id title url)); run_monad;
    exists []; now rewrite !app_nil_r.
Qed.

Lemma new_candidates_app d l1 l2 :
  new_candidates d (l1 ++ l2) = new_candidates d l1 ++ new_candidates d l2.
Proof.
  induction l1 as [| a l1 IH]; simpl; [reflexivity |].
  destruct (parsed a) as [n |]; [| exact IH].
  destruct (unseen d (new_id n)); simpl; now rewrite IH.
Qed.

Lemma collect_loop_spec l : forall acc st,
  exists lg,
    for_each_acc l acc
      (fun a new_articles =>
         try_except (identify a new_articles)
           (fun e => logger (LogArticleError e) ;; ret new_articles))%monad st
    = (Ok (acc ++ new_candidates (db st) l),
       mkState (db st) (outbox st) (log st ++ lg) (clock st)).
Proof.
  induction l as [| a l IH]; intros acc st.
  - exists []. simpl. unfold ret. rewrite !app_nil_r. now destruct st.
  - cbn [for_each_acc]. unfold bind at 1.
    destruct (identify_try_spec a acc st) as [lg1 ->].
    destruct (IH (acc ++ new_candidates (db st) [a])
                 (mkState (db st) (outbox st) (log st ++ lg1) (clock st)))
      as [lg2 ->].
    exists (lg1 ++ lg2).
    change (a :: l) with ([a] ++ l). rewrite new_candidates_app.
    cbn [db outbox log clock]. now rewrite !app_assoc.
Qed.

(** The first loop never raises, computes [new_candidates], and changes
    nothing but the log. *)
Lemma collect_new_spec l st :
  exists lg,
    collect_new l st
    = (Ok (new_candidates (db st) l),
       mkState (db st) (outbox st) (log st ++ lg) (clock st)).
Proof. apply (collect_loop_spec l [] st). Qed.





(* ------------------------------------------------------------------ *)
(** ** Text: substrings and the shape of a formatted date              *)
(* ------------------------------------------------------------------ *)

Lemma prefix_append (p b : string) : String.prefix p (p ++ b)%string = true.
Proof.
  induction p as [| c p IH]; simpl; [now destruct b |].
  destruct (ascii_dec c c); [exact IH | congruence].
Qed.

Lemma contains_prefix (p h : string) :
  String.prefix p h = true -> contains p h = true.
Proof. intros H. destruct h; cbn [contains]; now rewrite H. Qed.

Lemma contains_append (a p b : string) :
  contains p (a ++ p ++ b)%string = true.
Proof.
  induction a as [| c a IH].
  - change ("" ++ p ++ b)%string with (p ++ b)%string.
    apply contains_prefix, prefix_append.
  - cbn [append contains]. rewrite IH. apply orb_true_r.
Qed.

Lemma contains_append_r (a p : string) : contains p (a ++ p)%string = true.
Proof.
  replace p with (p ++ "")%string at 2; [apply contains_append |].
  induction p; simpl; congruence.
Qed.

Lemma pad2_shape (n : nat) :
  n < 100 ->
  exists a b, pad2 n = String a (String b "")
              /\ Strptime.is_digit a = true /\ Strptime.is_digit b = true.
Proof.
  intros H.
  assert (E : forallb (fun n =>
                match pad2 n with
                | String a (String b EmptyString) =>
                    Strptime.is_digit a && Strptime.is_digit b
                | _ => false
                end) (seq 0 100) = true) by (vm_compute; reflexivity).
  rewrite forallb_forall in E. specialize (E n).
  destruct (pad2 n) as [| a [| b [| c r]]];
    try (assert (false = true) by (apply E, in_seq; lia); discriminate).
  assert (Hd : Strptime.is_digit a && Strptime.is_digit b = true)
    by (apply E, in_seq; lia).
  apply andb_prop in Hd. exists a, b. tauto.
Qed.

Lemma year_shape (y : nat) :
  1000 <= y <= MAXYEAR ->
  exists a b c d,
    decimal y = String a (String b (String c (String d "")))
    /\ forallb Strptime.is_digit [a; b; c; d] = true.
Proof.
  intros H. unfold MAXYEAR in H.
  assert (E : forallb (fun n =>
                match decimal n with
                | String a (String b (String c (String d EmptyString))) =>
                    forallb Strptime.is_digit [a; b; c; d]
                | _ => false
                end) (seq 1000 (9 * 1000)) = true) by (vm_compute; reflexivity).
  rewrite forallb_forall in E. specialize (E y).
  destruct (decimal y) as [| a [| b [| c [| d [| e r]]]]];
    try (assert (false = true) by (apply E, in_seq; lia); discriminate).
  exists a, b, c, d. split; [reflexivity |]. apply E, in_seq. lia.
Qed.

Lemma days_in_month_bound y m : days_in_month y m <= 31.
Proof.
  unfold days_in_month.
  do 12 (destruct m as [| m]; [try destruct (is_leap y); lia |]). lia.
Qed.

(** A valid timestamp with a four-digit year is printed as
    [DD.MM.YYYY HH:MM]. *)
Lemma strftime_shape (d : datetime) :
  valid_datetime d = true -> 1000 <= year d ->
  dd_mm_yyyy_hh_mm (strftime d) = true.
Proof.
  unfold valid_datetime. intros V Hy.
  repeat (apply andb_prop in V; destruct V as [V ?]).
  repeat match goal with
         | H : Nat.leb _ _ = true |- _ => apply Nat.leb_le in H
         end.
  pose proof (days_in_month_bound (year d) (month d)).
  unfold strftime.
  destruct (pad2_shape (day d)) as (d1 & d2 & -> & Hd1 & Hd2); [lia |].
  destruct (pad2_shape (month d)) as (m1 & m2 & -> & Hm1 & Hm2); [lia |].
  destruct (pad2_shape (hour d)) as (h1 & h2 & -> & Hh1 & Hh2); [lia |].
  destruct (pad2_shape (minute d)) as (n1 & n2 & -> & Hn1 & Hn2); [lia |].
  destruct (year_shape (year d)) as (y1 & y2 & y3 & y4 & -> & Hy4); [lia |].
  cbn [append dd_mm_yyyy_hh_mm forallb].
  cbn [forallb] in Hy4. rewrite Hd1, Hd2, Hm1, Hm2, Hh1, Hh2, Hn1, Hn2.
  repeat (apply andb_prop in Hy4; destruct Hy4 as [-> Hy4]).
  reflexivity.
Qed.

(* ------------------------------------------------------------------ *)
(** ** What the scheduled pipeline delivers                            *)
(* ------------------------------------------------------------------ *)

Lemma bind_ok {A B} (m : M A) (f : A -> M B) st a st1 :
  m st = (Ok a, st1) -> bind m f st = f a st1.
Proof. intros E. unfold bind. now rewrite E. Qed.

Lemma bind_raise {A B} (m : M A) (f : A -> M B) st e st1 :
  m st = (Raise e, st1) -> bind m f st = (Raise e, st1).
Proof. intros E. unfold bind. now rewrite E. Qed.

Lemma outbox_adds_refl P st : outbox_adds P st st.
Proof. exists []. split; [now rewrite app_nil_r | constructor]. Qed.

Lemma outbox_adds_same P st st' :
  outbox st' = outbox st -> outbox_adds P st st'.
Proof. intros E. exists []. split; [now rewrite app_nil_r | constructor]. Qed.

Lemma outbox_adds_trans P a b c :
  outbox_adds P a b -> outbox_adds P b c -> outbox_adds P a c.
Proof.
  intros (x & Hx & Px) (y & Hy & Py). exists (x ++ y).
  split; [now rewrite Hy, Hx, app_assoc | now apply Forall_app].
Qed.

Lemma send_message_cases w chat_id text st :
  send_message w chat_id text st
  = (Ok tt, mkState (db st) (outbox st ++ [(chat_id, text)]) (log st)
                    (S (clock st)))
  \/ (telegram w (clock st) chat_id text = false
      /\ send_message w chat_id text st
         = (Raise TelegramError,
            mkState (db st) (outbox st) (log st) (S (clock st)))).
Proof.
  run_monad. destruct (telegram w (clock st) chat_id text); auto.
Qed.

Lemma insert_commit_outbox r st :
  outbox (snd ((execute_insert r ;; conn_commit)%monad st)) = outbox st.
Proof. run_monad. now destruct (insert_row (db st) r). Qed.

Lemma deliver_adds w chat_id news n st :
  In n news ->
  outbox_adds (scheduled_item w chat_id news) st
              (snd (deliver w chat_id n st)).
Proof.
  intros Hin. unfold deliver.
  pose proof (translate_text_frame w (new_title n) st) as [_ Hout].
  destruct (translate_text w (new_title n) st) as [[tr | e] st1] eqn:T;
    simpl in Hout.
  - rewrite (bind_ok _ _ _ _ _ T).
    destruct (send_message_cases w chat_id (scheduled_message tr n) st1)
      as [S | [_ S]].
    + rewrite (bind_ok _ _ _ _ _ S). unfold outbox_adds. cbv beta.
      rewrite insert_commit_outbox. cbn [outbox].
      exists [(chat_id, scheduled_message tr n)].
      split; [now rewrite Hout |].
      constructor; [| constructor]. exists n, tr, st. now rewrite T.
    + rewrite (bind_raise _ _ _ _ _ S). now apply outbox_adds_same.
  - rewrite (bind_raise _ _ _ _ _ T). now apply outbox_adds_same.
Qed.

Lemma deliver_all_adds w chat_id news st :
  outbox_adds (scheduled_item w chat_id news) st
              (snd (for_each news (deliver w chat_id) st)).
Proof.
  apply (preserves_for_each_in (outbox_adds (scheduled_item w chat_id news))
           (outbox_adds_refl _) (outbox_adds_trans _)).
  intros n Hn st0. now apply deliver_adds.
Qed.

Lemma try_logger_outbox {A} (m : M A) (h : exn -> M A) st :
  (forall e st1, outbox (snd (h e st1)) = outbox st1) ->
  outbox (snd (try_except m h st)) = outbox (snd (m st)).
Proof.
  intros H. unfold try_except.
  destruct (m st) as [[a | e] st1]; [reflexivity | apply H].
Qed.

(** Every message of a scheduled run is the notification of a new
    candidate of the fetched batch. *)
Lemma check_and_send_news_adds w chat_id st v :
  fst (fetch_bitcoin_news w st) = Ok v ->
  outbox_adds
    (scheduled_item w chat_id (new_candidates (db st) (fetched_list v)))
    st (snd (check_and_send_news w chat_id st)).
Proof.
  intros F.
  pose proof (fetch_bitcoin_news_frame w st) as [Hdb Hout].
  destruct (fetch_bitcoin_news w st) as [r st1] eqn:E.
  simpl in F, Hdb, Hout. subst r.
  unfold outbox_adds, check_and_send_news.
  rewrite try_logger_outbox by reflexivity.
  unfold check_and_send_news_try. rewrite (bind_ok _ _ _ _ _ E).
  destruct v as [| [| a l]]; cbn [falsy].
  - exists []. simpl. split; [now rewrite app_nil_r | constructor].
  - exists []. simpl. split; [now rewrite app_nil_r | constructor].
  - rewrite (bind_ok (iterate (FList (a :: l))) _ st1 (a :: l) st1 eq_refl).
    destruct (collect_new_spec (a :: l) st1) as [lg C].
    rewrite (bind_ok _ _ _ _ _ C).
    destruct (deliver_all_adds w chat_id
                (new_candidates (db st1) (a :: l))
                (mkState (db st1) (outbox st1) (log st1 ++ lg) (clock st1)))
      as (msgs & Hm & Pm).
    exists msgs. rewrite Hm. simpl. rewrite Hout, <- Hdb. auto.
Qed.

Lemma new_candidates_sound d l n :
  In n (new_candidates d l) ->
  exists a, In a l /\ parsed a = Some n /\ unseen d (new_id n) = true.
Proof.
  induction l as [| b l IH]; simpl; [contradiction |].
  destruct (parsed b) as [m |] eqn:Pb.
  - destruct (unseen d (new_id m)) eqn:U.
    + intros [<- | H]; [exists b; auto |].
      destruct (IH H) as (a & ? & ? & ?). exists a; auto.
    + intros H. destruct (IH H) as (a & ? & ? & ?). exists a; auto.
  - intros H. destruct (IH H) as (a & ? & ? & ?). exists a; auto.
Qed.

Lemma parse_valid s d : Strptime.parse s = Some d -> valid_datetime d = true.
Proof.
  unfold Strptime.parse.
  destruct (Strptime.regex_match s) as [[d' [| c r]] |]; try discriminate.
  destruct (valid_datetime d') eqn:V; [| discriminate].
  now intros [= <-].
Qed.

Lemma parsed_valid a n :
  parsed a = Some n -> valid_datetime (new_published_at n) = true.
Proof.
  unfold parsed.
  destruct (art_title a), (art_url a), (art_source a) as [[v | [name |]] |],
    (art_publishedAt a) as [[| z | stamp] |]; try discriminate.
  destruct (Strptime.parse stamp) as [d |] eqn:E; [| discriminate].
  intros [= <-]. simpl. now apply parse_valid with stamp.
Qed.

(* ------------------------------------------------------------------ *)
(** ** What the on-demand pipeline delivers                            *)
(* ------------------------------------------------------------------ *)

Lemma latest_item_incl w chat_id l l' m :
  incl l l' -> latest_item w chat_id l m -> latest_item w chat_id l' m.
Proof.
  intros Hi (a & title & url & tr & st_t & Ha & H).
  exists a, title, url, tr, st_t. split; [now apply Hi | exact H].
Qed.

Ltac unfold_monad :=
  cbv beta iota zeta delta
    [try_except bind requests_get tick raise_for_status response_json
     getitem logger ret raise send_message get_db put_db execute_select
     execute_insert conn_commit source_name strptime];
  cbn [fst snd db outbox log clock].

(** One turn of the loop of [latest_news]: at most one message, the
    notification of the article; when the turn returns, the fingerprint
    was appended to [sent_articles] exactly if a message was sent. *)
Lemma latest_step_spec w chat_id a sent st :
  exists items new,
    outbox (snd (latest_step w chat_id a sent st)) = outbox st ++ items
    /\ List.length items <= 1
    /\ Forall (latest_item w chat_id [a]) items
    /\ (forall sent', fst (latest_step w chat_id a sent st) = Ok sent' ->
          sent' = sent ++ new /\ List.length new = List.length items).
Proof.
  assert (Done0 : forall (r : result (list string)) (o : list message),
             o = outbox st ->
             (forall sent', r = Ok sent' -> sent' = sent) ->
             exists items new,
               o = outbox st ++ items
               /\ List.length items <= 1
               /\ Forall (latest_item w chat_id [a]) items
               /\ (forall sent', r = Ok sent' ->
                     sent' = sent ++ new
                     /\ List.length new = List.length items)).
  { intros r o Ho Hr. exists [], []. rewrite !app_nil_r.
    repeat split; auto. }
  unfold latest_step.
  destruct (art_title a) as [title |] eqn:Et; unfold_monad;
    [| apply Done0; [reflexivity | discriminate]].
  destruct (art_url a) as [url |] eqn:Eu; unfold_monad;
    [| apply Done0; [reflexivity | discriminate]].
  destruct (select_id (db st) (generate_news_id title url)); unfold_monad;
    [apply Done0; [reflexivity | now intros ? [= <-]] |].
  pose proof (translate_text_frame w title st) as [Hdb Hout].
  destruct (translate_text w title st) as [[tr | e] st1] eqn:T;
    cbn [fst snd] in *;
    [| apply Done0; [exact Hout | discriminate]].
  destruct (telegram w (clock st1) chat_id (latest_message tr url));
    cbn [fst snd db outbox log clock];
    [| apply Done0; [exact Hout | discriminate]].
  assert (Done1 : forall (r : result (list string)) (o : list message),
             o = outbox st1 ++ [(chat_id, latest_message tr url)] ->
             (forall sent', r = Ok sent' ->
                sent' = sent ++ [generate_news_id title url]) ->
             exists items new,
               o = outbox st ++ items
               /\ List.length items <= 1
               /\ Forall (latest_item w chat_id [a]) items
               /\ (forall sent', r = Ok sent' ->
                     sent' = sent ++ new
                     /\ List.length new = List.length items)).
  { intros r o Ho Hr.
    exists [(chat_id, latest_message tr url)], [generate_news_id title url].
    rewrite Ho, Hout. repeat split; auto.
    constructor; [| constructor].
    exists a, title, url, tr, st. rewrite T. repeat split; auto. now left. }
  destruct (art_source a) as [[v | [name |]] |];
    cbn [fst snd db outbox log clock];
    try (apply Done1; [reflexivity | discriminate]).
  destruct (art_publishedAt a) as [[| z | stamp] |];
    cbn [fst snd db outbox log clock];
    try (apply Done1; [reflexivity | discriminate]).
  destruct (Strptime.parse stamp) as [published_at |];
    cbn [fst snd db outbox log clock];
    try (apply Done1; [reflexivity | discriminate]).
  destruct (insert_row _ _); cbn [fst snd db outbox log clock];
    apply Done1; try reflexivity; try discriminate.
  now intros ? [= <-].
Qed.

Lemma latest_loop_spec w chat_id l : forall sent st,
  exists items new,
    outbox (snd (for_each_acc l sent (latest_step w chat_id) st))
    = outbox st ++ items
    /\ List.length items <= List.length l
    /\ Forall (latest_item w chat_id l) items
    /\ (forall sent',
          fst (for_each_acc l sent (latest_step w chat_id) st) = Ok sent' ->
          sent' = sent ++ new /\ List.length new = List.length items).
Proof.
  induction l as [| a l IH]; intros sent st.
  - exists [], []. simpl. rewrite !app_nil_r.
    split; [reflexivity |]. split; [lia |]. split; [constructor |].
    intros ? [= <-]. auto.
  - cbn [for_each_acc].
    destruct (latest_step_spec w chat_id a sent st)
      as (i1 & n1 & Ho1 & Hl1 & Hf1 & Hs1).
    destruct (latest_step w chat_id a sent st) as [[s1 | e] st1] eqn:S;
      cbn [fst snd] in *.
    + rewrite (bind_ok _ _ _ _ _ S).
      destruct (IH s1 st1) as (i2 & n2 & Ho2 & Hl2 & Hf2 & Hs2).
      destruct (Hs1 s1 eq_refl) as [-> Hn1].
      exists (i1 ++ i2), (n1 ++ n2).
      rewrite Ho2, Ho1, !length_app, !app_assoc.
      split; [reflexivity |]. split; [simpl; lia |]. split.
      * apply Forall_app. split.
        -- eapply Forall_impl; [| exact Hf1].
           intros m. apply latest_item_incl.
           intros x [<- | []]. now left.
        -- eapply Forall_impl; [| exact Hf2].
           intros m. apply latest_item_incl. intros x Hx. now right.
      * intros sent' H. destruct (Hs2 sent' H) as [-> Hn2]. split; [| lia].
        reflexivity.
    + rewrite (bind_raise _ _ _ _ _ S). exists i1, n1.
      split; [exact Ho1 |]. split; [simpl; lia |]. split; [| discriminate].
      eapply Forall_impl; [| exact Hf1].
      intros m. apply latest_item_incl. intros x [<- | []]. now left.
Qed.

(** The [try] block of [latest_news]: the notifications of some of the
    first five fetched articles, then at most one notice. *)
Lemma latest_news_try_spec w chat_id st v :
  fst (fetch_bitcoin_news w st) = Ok v ->
  exists items tail,
    outbox (snd (latest_news_try w chat_id st)) = outbox st ++ items ++ tail
    /\ List.length items <= 5
    /\ Forall (latest_item w chat_id (firstn 5 (fetched_list v))) items
    /\ match fst (latest_news_try w chat_id st) with
       | Ok _ =>
           (items = [] /\ tail = [(chat_id, no_news_found)])
           \/ (items = [] /\ tail = [(chat_id, nothing_new)])
           \/ (items <> [] /\ tail = [])
       | Raise _ => tail = []
       end.
Proof.
  intros F.
  pose proof (fetch_bitcoin_news_frame w st) as [_ Hout].
  destruct (fetch_bitcoin_news w st) as [r st1] eqn:E.
  cbn [fst snd] in *. subst r.
  unfold latest_news_try. rewrite (bind_ok _ _ _ _ _ E).
  destruct v as [| l].
  - rewrite (bind_raise (slice5 FNone) _ st1 TypeError st1 eq_refl).
    exists [], []. cbn [fst snd]. rewrite Hout, !app_nil_r.
    split; [reflexivity |]. split; [simpl; lia |]. split; [constructor |].
    reflexivity.
  - rewrite (bind_ok (slice5 (FList l)) _ st1 (firstn 5 l) st1 eq_refl).
    cbn [fetched_list].
    assert (L5 : List.length (firstn 5 l) <= 5)
      by (rewrite length_firstn; lia).
    destruct (firstn 5 l) as [| a l5].
    + destruct (send_message_cases w chat_id no_news_found st1)
        as [S | [_ S]]; rewrite S; cbn [fst snd outbox].
      * exists [], [(chat_id, no_news_found)]. rewrite Hout.
        split; [reflexivity |]. split; [simpl; lia |]. split; [constructor |].
        left. split; reflexivity.
      * exists [], []. rewrite Hout, !app_nil_r.
        split; [reflexivity |]. split; [simpl; lia |]. split; [constructor |].
        reflexivity.
    + destruct (latest_loop_spec w chat_id (a :: l5) [] st1)
        as (items & new & Ho & Hl & Hf & Hs).
      destruct (for_each_acc (a :: l5) [] (latest_step w chat_id) st1)
        as [[sent | e] st2] eqn:LP; cbn [fst snd] in *.
      * rewrite (bind_ok _ _ _ _ _ LP).
        destruct (Hs sent eq_refl) as [-> Hn]. cbn [app] in *.
        destruct new as [| s new].
        -- destruct items as [| m items]; [| discriminate Hn].
           destruct (send_message_cases w chat_id nothing_new st2)
             as [S | [_ S]].
           ++ rewrite (bind_ok _ _ _ _ _ S). unfold_monad.
              exists [], [(chat_id, nothing_new)].
              rewrite Ho, Hout, !app_nil_r.
              split; [reflexivity |]. split; [simpl; lia |].
              split; [constructor |]. right. left. split; reflexivity.
           ++ rewrite (bind_raise _ _ _ _ _ S). cbn [fst snd outbox].
              exists [], []. rewrite Ho, Hout, !app_nil_r.
              split; [reflexivity |]. split; [simpl; lia |].
              split; [constructor |]. reflexivity.
        -- rewrite (bind_ok (ret tt) _ st2 tt st2 eq_refl). unfold_monad.
           exists items, []. rewrite Ho, Hout, !app_nil_r.
           split; [reflexivity |]. split; [lia |]. split; [exact Hf |].
           right. right. split; [| reflexivity].
           destruct items; [discriminate Hn | discriminate].
      * rewrite (bind_raise _ _ _ _ _ LP). cbn [fst snd].
        exists items, []. rewrite Ho, Hout, !app_nil_r.
        split; [reflexivity |]. split; [lia |]. split; [exact Hf |].
        reflexivity.
Qed.

(** Every message of an on-demand run is a notice or the notification
    of one of the first five fetched articles. *)
Lemma latest_news_adds w chat_id st v :
  fst (fetch_bitcoin_news w st) = Ok v ->
  outbox_adds
    (fun m => m = (chat_id, no_news_found) \/ m = (chat_id, nothing_new)
              \/ m = (chat_id, error_reply)
              \/ latest_item w chat_id (firstn 5 (fetched_list v)) m)
    st (snd (latest_news w chat_id st)).
Proof.
  intros F.
  destruct (latest_news_try_spec w chat_id st v F)
    as (items & tail & Ho & _ & Hf & Hr).
  assert (Hi : Forall
                 (fun m => m = (chat_id, no_news_found)
                           \/ m = (chat_id, nothing_new)
                           \/ m = (chat_id, error_reply)
                           \/ latest_item w chat_id
                                (firstn 5 (fetched_list v)) m) items).
  { eapply Forall_impl; [| exact Hf]. intros m Hm. tauto. }
  unfold latest_news, try_except.
  destruct (latest_news_try w chat_id st) as [[[] | e] st2];
    cbn [fst snd] in *.
  - exists (items ++ tail). split; [exact Ho |].
    apply Forall_app. split; [exact Hi |].
    destruct Hr as [[_ ->] | [[_ ->] | [_ ->]]];
      first [ constructor; [auto 6 | constructor] | constructor ].
  - subst tail. rewrite app_nil_r in Ho.
    rewrite (bind_ok (logger (LogLatestError e)) _ st2 tt _ eq_refl).
    match goal with
    | |- context [send_message w chat_id error_reply ?s] =>
        destruct (send_message_cases w chat_id error_reply s) as [S | [_ S]];
          rewrite S
    end; cbn [fst snd outbox clock log db].
    + exists (items ++ [(chat_id, error_reply)]).
      rewrite Ho, app_assoc. split; [reflexivity |].
      apply Forall_app. split; [exact Hi |].
      constructor; [auto 6 | constructor].
    + exists items. split; [exact Ho | exact Hi].
Qed.

(** C9, amended: an on-demand run works on the first five fetched
    articles at most.  It delivers the notifications of some of them and
    then at most one notice; when it returns, the replies are the "no
    news found" notice alone, or the "nothing new" notice alone, or one
    or more notifications, or any number of notifications followed by
    the error notice: never nothing.  It raises only when Telegram
    refuses the error notice itself. *)
Theorem latest_news_outcome (w : world) (chat_id : Z) (st : state)
    (v : fetched) :
  fst (fetch_bitcoin_news w st) = Ok v ->
  let r := latest_news w chat_id st in
  exists items tail,
    outbox (snd r) = outbox st ++ items ++ tail
    /\ List.length items <= 5
    /\ Forall (latest_item w chat_id (firstn 5 (fetched_list v))) items
    /\ ((fst r = Ok tt
         /\ ((items = [] /\ tail = [(chat_id, no_news_found)])
             \/ (items = [] /\ tail = [(chat_id, nothing_new)])
             \/ (items <> [] /\ tail = [])
             \/ tail = [(chat_id, error_reply)]))
        \/ (fst r = Raise TelegramError /\ tail = []
            /\ exists n, telegram w n chat_id error_reply = false))
    /\ (fst r = Ok tt -> items ++ tail <> [])
    /\ ((forall n text, telegram w n chat_id text = true) -> fst r = Ok tt).
Proof.
  intros F r. subst r.
  destruct (latest_news_try_spec w chat_id st v F)
    as (items & tail & Ho & Hl & Hf & Hr).
  unfold latest_news, try_except.
  destruct (latest_news_try w chat_id st) as [[[] | e] st2];
    cbn [fst snd] in *.
  - exists items, tail.
    split; [exact Ho |]. split; [exact Hl |]. split; [exact Hf |].
    split; [left; split; [reflexivity | tauto] |].
    split; [| reflexivity].
    intros _ Hnil. apply app_eq_nil in Hnil. destruct Hnil as [-> ->].
    destruct Hr as [[_ H] | [[_ H] | [H _]]];
      [discriminate | discriminate | now apply H].
  - subst tail. rewrite app_nil_r in Ho.
    rewrite (bind_ok (logger (LogLatestError e)) _ st2 tt _ eq_refl).
    match goal with
    | |- context [send_message w chat_id error_reply ?s] =>
        destruct (send_message_cases w chat_id error_reply s) as [S | [N S]];
          rewrite S
    end; cbn [fst snd outbox clock log db] in *.
    + exists items, [(chat_id, error_reply)]. rewrite Ho, app_assoc.
      split; [reflexivity |]. split; [exact Hl |]. split; [exact Hf |].
      split; [left; split; [reflexivity | tauto] |].
      split; [| reflexivity].
      intros _ Hnil. apply app_eq_nil in Hnil. destruct Hnil as [_ Hnil].
      discriminate.
    + exists items, []. rewrite Ho, !app_nil_r.
      split; [reflexivity |]. split; [exact Hl |]. split; [exact Hf |].
      split; [right; split; [reflexivity |]; split; [reflexivity |];
              now exists (clock st2) |].
      split; [discriminate |].
      intros Hall. rewrite Hall in N. discriminate.
Qed.

Lemma latest_news_outcome_witness :
  let w := Sample.world_of [Sample.a1; Sample.no_title] Sample.accept_all in
  fst (fetch_bitcoin_news w initial_state)
  = Ok (FList [Sample.a1; Sample.no_title])
  /\ exists items tail,
       outbox (snd (latest_news w Sample.chat initial_state))
       = outbox initial_state ++ items ++ tail
       /\ List.length items <= 5.
Proof.
  intros w. split; [reflexivity |].
  destruct (latest_news_outcome w Sample.chat initial_state
              (FList [Sample.a1; Sample.no_title]) eq_refl)
    as (items & tail & Ho & Hl & _).
  exists items, tail. split; [exact Ho | exact Hl].
Defined.

(* ------------------------------------------------------------------ *)
(** ** The payload of a notification                                   *)
(* ------------------------------------------------------------------ *)

Lemma contains_skip (a h p : string) :
  contains p h = true -> contains p (a ++ h)%string = true.
Proof.
  intros H. induction a as [| c a IH]; [exact H |].
  cbn [append contains]. rewrite IH. apply orb_true_r.
Qed.

Lemma contains_here (p b : string) : contains p (p ++ b)%string = true.
Proof. apply contains_prefix, prefix_append. Qed.

Ltac find_part :=
  repeat first [ apply contains_here | apply contains_append_r
               | apply contains_skip ].

Lemma scheduled_message_parts (tr : pyval) (n : new_article) :
  contains (py_str tr) (scheduled_message tr n) = true
  /\ contains (py_str (new_source n)) (scheduled_message tr n) = true
  /\ contains (strftime (new_published_at n)) (scheduled_message tr n) = true
  /\ contains ("(" ++ py_str (new_url n) ++ ")")%string
              (scheduled_message tr n) = true.
Proof.
  unfold scheduled_message. repeat split; try (now find_part).
  change ("[Читать оригинал](" ++ py_str (new_url n) ++ ")")%string
    with ("[Читать оригинал]" ++ ("(" ++ py_str (new_url n) ++ ")"))%string.
  now find_part.
Qed.

Lemma latest_message_parts (tr url : pyval) :
  contains (py_str tr) (latest_message tr url) = true
  /\ contains ("(" ++ py_str url ++ ")")%string (latest_message tr url) = true.
Proof.
  unfold latest_message. split; [now find_part |].
  change ("[Читать статью](" ++ py_str url ++ ")")%string
    with ("[Читать статью]" ++ ("(" ++ py_str url ++ ")"))%string.
  now find_part.
Qed.

(** C6, amended: every notification of a scheduled run is built from a
    well-formed fetched article and holds the title as the translator
    returned it, the source name, the publish date (of the shape
    DD.MM.YYYY HH:MM for a four-digit year) and the article's url as a
    link.  Every message of an on-demand run is one of the three notices
    or the notification of one of the first five fetched articles, which
    holds the translated title and the link (and nothing else). *)
Theorem notification_payload (w : world) (chat_id : Z) (st : state)
    (v : fetched) :
  fst (fetch_bitcoin_news w st) = Ok v ->
  (exists msgs,
     outbox (snd (check_and_send_news w chat_id st)) = outbox st ++ msgs
     /\ Forall (fun m =>
          exists a n translated st_t,
            In a (fetched_list v) /\ parsed a = Some n
            /\ fst (translate_text w (new_title n) st_t) = Ok translated
            /\ m = (chat_id, scheduled_message translated n)
            /\ contains (py_str translated) (snd m) = true
            /\ contains (py_str (new_source n)) (snd m) = true
            /\ contains (strftime (new_published_at n)) (snd m) = true
            /\ contains ("(" ++ py_str (new_url n) ++ ")")%string (snd m) = true
            /\ (1000 <= year (new_published_at n) ->
                dd_mm_yyyy_hh_mm (strftime (new_published_at n)) = true))
          msgs)
  /\ (exists msgs,
        outbox (snd (latest_news w chat_id st)) = outbox st ++ msgs
        /\ Forall (fun m =>
             m = (chat_id, no_news_found) \/ m = (chat_id, nothing_new)
             \/ m = (chat_id, error_reply)
             \/ exists a title url translated st_t,
                  In a (firstn 5 (fetched_list v))
                  /\ art_title a = Some title /\ art_url a = Some url
                  /\ fst (translate_text w title st_t) = Ok translated
                  /\ m = (chat_id, latest_message translated url)
                  /\ snd m = ("📰 *" ++ py_str translated ++ "*" ++ nl
                              ++ "[Читать статью](" ++ py_str url ++ ")")%string
                  /\ contains (py_str translated) (snd m) = true
                  /\ contains ("(" ++ py_str url ++ ")")%string (snd m) = true)
             msgs).
Proof.
  intros F. split.
  - destruct (check_and_send_news_adds w chat_id st v F) as (msgs & Ho & Hf).
    exists msgs. split; [exact Ho |].
    eapply Forall_impl; [| exact Hf].
    intros m (n & tr & st_t & Hin & Ht & ->).
    destruct (new_candidates_sound _ _ _ Hin) as (a & Ha & Hp & _).
    exists a, n, tr, st_t. cbn [snd].
    destruct (scheduled_message_parts tr n) as (H1 & H2 & H3 & H4).
    repeat (split; [assumption || reflexivity |]).
    intros Hy. apply strftime_shape; [| exact Hy].
    now apply parsed_valid with a.
  - destruct (latest_news_adds w chat_id st v F) as (msgs & Ho & Hf).
    exists msgs. split; [exact Ho |].
    eapply Forall_impl; [| exact Hf].
    intros m [H | [H | [H | H]]]; [tauto | tauto | tauto |].
    destruct H as (a & title & url & tr & st_t & Ha & Ht & Hu & Htr & ->).
    right. right. right. exists a, title, url, tr, st_t. cbn [snd].
    destruct (latest_message_parts tr url) as [H1 H2].
    repeat (split; [assumption || reflexivity |]). exact H2.
Qed.

Lemma notification_payload_witness :
  let w := Sample.world_of [Sample.a1] Sample.accept_all in
  fst (fetch_bitcoin_news w initial_state) = Ok (FList [Sample.a1])
  /\ exists msgs,
       outbox (snd (check_and_send_news w Sample.chat initial_state))
       = outbox initial_state ++ msgs.
Proof.
  intros w. split; [reflexivity |].
  destruct (notification_payload w Sample.chat initial_state
              (FList [Sample.a1]) eq_refl) as [(msgs & Ho & _) _].
  exists msgs. exact Ho.
Defined.

(* ------------------------------------------------------------------ *)
(** ** The scheduled pipeline does not deliver twice across runs       *)
(* ------------------------------------------------------------------ *)


Lemma store_grows_ids a b :
  store_grows a b -> incl (ids (db a)) (ids (db b)).
Proof.
  intros ([x Hx] & _ & _) i Hi. unfold ids in *. rewrite Hx, map_app.
  apply in_or_app. now left.
Qed.












(* ------------------------------------------------------------------ *)
(** ** One attempt per network call                                    *)
(* ------------------------------------------------------------------ *)

Lemma translate_text_clock w text st :
  clock (snd (translate_text w text st))
  = match text with
    | PStr s => if strip_is_empty s then clock st else S (clock st)
    | _ => clock st
    end.
Proof.
  destruct text as [| z | s]; simpl; try reflexivity.
  destruct (strip_is_empty s); [reflexivity |]. run_monad.
  destruct (translate_api w (clock st) s) as [| status body]; simpl;
    [reflexivity |].
  destruct ((400 <=? status) && (status <? 600))%Z; simpl; [reflexivity |].
  destruct body as [[| [v |] data] |]; simpl; try reflexivity.
  destruct (py_eq_int v 200); simpl; [| reflexivity].
  destruct data as [[x | [x |]] |]; reflexivity.
Qed.

Lemma fetch_bitcoin_news_clock w st :
  clock (snd (fetch_bitcoin_news w st)) = S (clock st).
Proof.
  unfold fetch_bitcoin_news. run_monad.
  destruct (news_api w (clock st)) as [| status body]; simpl; [reflexivity |].
  destruct ((400 <=? status) && (status <? 600))%Z; simpl; [reflexivity |].
  destruct body as [[| [articles |]] |]; reflexivity.
Qed.

Lemma translate_text_one_answer w w' text st :
  (forall s, translate_api w' (clock st) s = translate_api w (clock st) s) ->
  translate_text w' text st = translate_text w text st.
Proof.
  intros E. destruct text as [| z | s]; simpl; try reflexivity.
  destruct (strip_is_empty s); [reflexivity |]. run_monad.
  now rewrite E.
Qed.

Lemma fetch_bitcoin_news_one_answer w w' st :
  news_api w' (clock st) = news_api w (clock st) ->
  fetch_bitcoin_news w' st = fetch_bitcoin_news w st.
Proof. intros E. unfold fetch_bitcoin_news. run_monad. now rewrite E. Qed.

(** X2: the translator and the fetcher make a single attempt.  A call of
    [translate_text] on non-blank text asks the translator once, a call
    on blank text or on a value that is no text asks nobody, and a call
    of [fetch_bitcoin_news] asks NewsAPI once; in two worlds that give
    the same answer at that one call both functions behave alike,
    whatever the worlds would answer later. *)
Theorem network_calls_single_attempt (w w' : world) (text : pyval)
    (st : state) :
  (forall s, translate_api w' (clock st) s = translate_api w (clock st) s) ->
  news_api w' (clock st) = news_api w (clock st) ->
  clock (snd (translate_text w text st))
  = match text with
    | PStr s => if strip_is_empty s then clock st else S (clock st)
    | _ => clock st
    end
  /\ clock (snd (fetch_bitcoin_news w st)) = S (clock st)
  /\ translate_text w' text st = translate_text w text st
  /\ fetch_bitcoin_news w' st = fetch_bitcoin_news w st.
Proof.
  intros Et En.
  split; [apply translate_text_clock |].
  split; [apply fetch_bitcoin_news_clock |].
  split; [now apply translate_text_one_answer |].
  now apply fetch_bitcoin_news_one_answer.
Qed.

Lemma network_calls_single_attempt_witness :
  let w := Sample.world_of [Sample.a1] Sample.accept_all in
  let w' := mkWorld (fun n => if Nat.eqb n 0 then news_api w 0 else NoResponse)
                    (fun n s => if Nat.eqb n 0 then Sample.ru s else NoResponse)
                    Sample.accept_all in
  news_api w' 0 = news_api w 0
  /\ translate_text w' (PStr "BTC falls") initial_state
     = translate_text w (PStr "BTC falls") initial_state.
Proof.
  intros w w'. split; [reflexivity |].
  apply (network_calls_single_attempt w w' (PStr "BTC falls") initial_state);
    reflexivity.
Defined.

(* ------------------------------------------------------------------ *)
(** ** INSERT and SELECT on the store                                  *)
(* ------------------------------------------------------------------ *)




(* ------------------------------------------------------------------ *)
(** ** Scheduled runs that deliver nothing                             *)
(* ------------------------------------------------------------------ *)







(* ------------------------------------------------------------------ *)
(** ** A scheduled run in which nothing fails                          *)
(* ------------------------------------------------------------------ *)







(* ------------------------------------------------------------------ *)
(** ** The on-demand pipeline delivers a fingerprint once              *)
(* ------------------------------------------------------------------ *)

Lemma latest_step_grows w chat_id a sent :
  preserves store_grows (latest_step w chat_id a sent).
Proof.
  apply (preserves_latest_step store_grows store_grows_refl
           store_grows_trans);
    first [ exact store_grows_insert | exact store_grows_commit
          | intros; now apply store_grows_same_db ].
Qed.

Lemma latest_loop_grows w chat_id l sent :
  preserves store_grows (for_each_acc l sent (latest_step w chat_id)).
Proof.
  apply (preserves_for_each_acc store_grows store_grows_refl
           store_grows_trans).
  intros a acc. apply latest_step_grows.
Qed.

(** One turn of the loop: no message at all, or the notification of the
    article at hand, whose fingerprint the store does not hold; when the
    turn returns, the store holds it. *)
Lemma latest_step_cases w chat_id a sent st :
  outbox (snd (latest_step w chat_id a sent st)) = outbox st
  \/ exists title url tr,
       art_title a = Some title /\ art_url a = Some url
       /\ ~ In (generate_news_id title url) (ids (db st))
       /\ outbox (snd (latest_step w chat_id a sent st))
          = outbox st ++ [(chat_id, latest_message tr url)]
       /\ (forall sent', fst (latest_step w chat_id a sent st) = Ok sent' ->
             In (generate_news_id title url)
                (ids (db (snd (latest_step w chat_id a sent st))))).
Proof.
  unfold latest_step.
  destruct (art_title a) as [title |]; unfold_monad; [| now left].
  destruct (art_url a) as [url |]; unfold_monad; [| now left].
  destruct (select_id (db st) (generate_news_id title url)) eqn:S;
    unfold_monad; [now left |].
  pose proof (translate_text_frame w title st) as [Hdb Hout].
  destruct (translate_text w title st) as [[tr | e] st1] eqn:T;
    cbn [fst snd] in *; [| now left].
  destruct (telegram w (clock st1) chat_id (latest_message tr url));
    cbn [fst snd db outbox log clock]; [| now left].
  right. exists title, url, tr.
  split; [reflexivity |]. split; [reflexivity |].
  split; [now apply select_id_none |].
  destruct (art_source a) as [[v | [name |]] |];
    cbn [fst snd db outbox log clock];
    try (split; [now rewrite Hout | discriminate]).
  destruct (art_publishedAt a) as [[| z | stamp] |];
    cbn [fst snd db outbox log clock];
    try (split; [now rewrite Hout | discriminate]).
  destruct (Strptime.parse stamp) as [published_at |];
    cbn [fst snd db outbox log clock];
    try (split; [now rewrite Hout | discriminate]).
  destruct (insert_row _ _) as [d' |] eqn:I;
    cbn [fst snd db outbox log clock];
    (split; [now rewrite Hout |]); [| discriminate].
  intros sent' _. apply insert_row_some in I. destruct I as (_ & Hc & Hp).
  unfold ids, visible. rewrite Hc, Hp, !map_app. cbn [map row_id].
  apply in_or_app. right. apply in_or_app. right. now left.
Qed.

Lemma latest_loop_deliveries w chat_id l : forall sent st,
  exists ds,
    outbox (snd (for_each_acc l sent (latest_step w chat_id) st))
    = outbox st ++ map (delivery_message chat_id) ds
    /\ NoDup (map delivery_id ds)
    /\ (forall d, In d ds ->
          ~ In (delivery_id d) (ids (db st))
          /\ exists a, In a l /\ art_title a = Some (del_title d)
                       /\ art_url a = Some (del_url d))
    /\ (forall sent',
          fst (for_each_acc l sent (latest_step w chat_id) st) = Ok sent' ->
          forall d, In d ds ->
            In (delivery_id d)
               (ids (db (snd (for_each_acc l sent (latest_step w chat_id)
                                st))))).
Proof.
  induction l as [| a l IH]; intros sent st.
  - exists []. cbn. rewrite app_nil_r.
    split; [reflexivity |]. split; [constructor |].
    split; intros; contradiction.
  - cbn [for_each_acc].
    pose proof (latest_step_grows w chat_id a sent st) as G1.
    pose proof (latest_step_cases w chat_id a sent st) as C.
    destruct (latest_step w chat_id a sent st) as [[s1 | e] st1] eqn:S;
      cbn [fst snd] in *.
    + rewrite (bind_ok _ _ _ _ _ S).
      pose proof (latest_loop_grows w chat_id l s1 st1) as G2.
      destruct (IH s1 st1) as (ds2 & Ho2 & Hn2 & Hf2 & Hs2).
      destruct C as [Ho1 | (title & url & tr & Et & Eu & Hnot & Ho1 & Hin)].
      * exists ds2. rewrite Ho2, Ho1.
        split; [reflexivity |]. split; [exact Hn2 |]. split; [| exact Hs2].
        intros d Hd. destruct (Hf2 d Hd) as (Hx & b & Hb & Hbt & Hbu).
        split; [| exists b; split; [now right | auto]].
        intros Hi. apply Hx. now apply (store_grows_ids st st1).
      * exists (mkDelivery title url tr :: ds2).
        rewrite Ho2, Ho1, <- app_assoc.
        split; [reflexivity |]. split; [| split].
        -- cbn [map]. constructor; [| exact Hn2].
           intros Hi. apply in_map_iff in Hi. destruct Hi as (d & Ed & Hd).
           destruct (Hf2 d Hd) as (Hx & _). apply Hx. rewrite Ed.
           now apply (Hin s1).
        -- intros d [<- | Hd].
           ++ split; [exact Hnot |]. exists a. split; [now left | auto].
           ++ destruct (Hf2 d Hd) as (Hx & b & Hb & Hbt & Hbu).
              split; [| exists b; split; [now right | auto]].
              intros Hi. apply Hx. now apply (store_grows_ids st st1).
        -- intros sent' Hok d [<- | Hd].
           ++ apply (store_grows_ids st1 _ G2). now apply (Hin s1).
           ++ now apply (Hs2 sent').
    + rewrite (bind_raise _ _ _ _ _ S). cbn [fst snd].
      destruct C as [Ho1 | (title & url & tr & Et & Eu & Hnot & Ho1 & Hin)].
      * exists []. cbn. rewrite app_nil_r.
        split; [exact Ho1 |]. split; [constructor |].
        split; [intros; contradiction | discriminate].
      * exists [mkDelivery title url tr].
        split; [exact Ho1 |].
        split; [constructor; [intros [] | constructor] |].
        split; [| discriminate].
        intros d [<- | []]. split; [exact Hnot |].
        exists a. split; [now left | auto].
Qed.

(** The messages of an on-demand run are those of its loop over the
    first five fetched articles, then at most one notice. *)
Lemma latest_news_shape w chat_id st v :
  fst (fetch_bitcoin_news w st) = Ok v ->
  exists tail,
    outbox (snd (latest_news w chat_id st))
    = outbox (snd (for_each_acc (firstn 5 (fetched_list v)) []
                     (latest_step w chat_id) (snd (fetch_bitcoin_news w st))))
      ++ tail
    /\ List.length tail <= 1 /\ Forall (is_notice chat_id) tail.
Proof.
  intros F.
  assert (None0 : forall o : list message,
             exists tail, o = o ++ tail /\ List.length tail <= 1
                          /\ Forall (is_notice chat_id) tail).
  { intros o. exists []. rewrite app_nil_r. repeat split; auto. }
  assert (One : forall (o : list message) m,
             is_notice chat_id m ->
             exists tail, o ++ [m] = o ++ tail /\ List.length tail <= 1
                          /\ Forall (is_notice chat_id) tail).
  { intros o m Hm. exists [m]. repeat split; auto. }
  assert (Handler : forall e st2 (o : list message),
             outbox st2 = o ->
             exists tail,
               outbox (snd ((logger (LogLatestError e) ;;
                             send_message w chat_id error_reply)%monad st2))
               = o ++ tail
               /\ List.length tail <= 1 /\ Forall (is_notice chat_id) tail).
  { intros e st2 o <-.
    rewrite (bind_ok (logger (LogLatestError e)) _ st2 tt _ eq_refl).
    match goal with
    | |- context [send_message w chat_id error_reply ?s] =>
        destruct (send_message_cases w chat_id error_reply s) as [S | [_ S]];
          rewrite S
    end; cbn [fst snd outbox].
    - apply One. unfold is_notice. auto.
    - apply None0. }
  destruct (fetch_bitcoin_news w st) as [r st1] eqn:E.
  cbn [fst snd] in *. subst r.
  unfold latest_news, try_except, latest_news_try.
  rewrite (bind_ok _ _ _ _ _ E).
  destruct v as [| l].
  - rewrite (bind_raise (slice5 FNone) _ st1 TypeError st1 eq_refl).
    cbn [fetched_list firstn for_each_acc]. now apply Handler.
  - rewrite (bind_ok (slice5 (FList l)) _ st1 (firstn 5 l) st1 eq_refl).
    cbn [fetched_list].
    destruct (firstn 5 l) as [| a l5].
    + cbn [for_each_acc].
      destruct (send_message_cases w chat_id no_news_found st1)
        as [S | [_ S]]; rewrite S; cbn [fst snd outbox].
      * apply One. unfold is_notice. auto.
      * now apply Handler.
    + destruct (for_each_acc (a :: l5) [] (latest_step w chat_id) st1)
        as [[sent | e] st2] eqn:LP; cbn [fst snd].
      * rewrite (bind_ok _ _ _ _ _ LP).
        destruct sent as [| s sent].
        -- destruct (send_message_cases w chat_id nothing_new st2)
             as [S | [_ S]].
           ++ rewrite (bind_ok _ _ _ _ _ S). unfold_monad.
              apply One. unfold is_notice. auto.
           ++ rewrite (bind_raise _ _ _ _ _ S). now apply Handler.
        -- rewrite (bind_ok (ret tt) _ st2 tt st2 eq_refl). unfold_monad.
           apply None0.
      * rewrite (bind_raise _ _ _ _ _ LP). now apply Handler.
Qed.

(** X7: an on-demand run delivers a fingerprint at most once.  The
    notifications of a run of [latest_news] are those of articles among
    the first five fetched, no two of them for the same fingerprint and
    none for a fingerprint that the store held when the run began; they
    are followed by at most one notice. *)
Theorem latest_news_at_most_once (w : world) (chat_id : Z) (st : state)
    (v : fetched) :
  fst (fetch_bitcoin_news w st) = Ok v ->
  exists ds tail,
    outbox (snd (latest_news w chat_id st))
    = outbox st ++ map (delivery_message chat_id) ds ++ tail
    /\ NoDup (map delivery_id ds)
    /\ (forall d, In d ds ->
          ~ In (delivery_id d) (ids (db st))
          /\ exists a, In a (firstn 5 (fetched_list v))
                       /\ art_title a = Some (del_title d)
                       /\ art_url a = Some (del_url d))
    /\ List.length tail <= 1 /\ Forall (is_notice chat_id) tail.
Proof.
  intros F.
  destruct (latest_news_shape w chat_id st v F) as (tail & Ho & Hl & Hn).
  pose proof (fetch_bitcoin_news_frame w st) as [Hdb Hout].
  destruct (latest_loop_deliveries w chat_id (firstn 5 (fetched_list v)) []
              (snd (fetch_bitcoin_news w st)))
    as (ds & Hod & Hnd & Hf & _).
  exists ds, tail. rewrite Ho, Hod, Hout, <- app_assoc.
  split; [reflexivity |]. split; [exact Hnd |].
  split; [| split; assumption].
  intros d Hd. destruct (Hf d Hd) as [Hx Ha]. split; [| exact Ha].
  now rewrite <- Hdb.
Qed.

Lemma latest_news_at_most_once_witness :
  let w := Sample.world_of [Sample.a1; Sample.a1; Sample.a2]
                           Sample.accept_all in
  fst (fetch_bitcoin_news w initial_state)
  = Ok (FList [Sample.a1; Sample.a1; Sample.a2])
  /\ exists ds tail,
       outbox (snd (latest_news w Sample.chat initial_state))
       = outbox initial_state ++ map (delivery_message Sample.chat) ds ++ tail
       /\ NoDup (map delivery_id ds).
Proof.
  intros w.
  assert (F : fst (fetch_bitcoin_news w initial_state)
              = Ok (FList [Sample.a1; Sample.a1; Sample.a2])) by reflexivity.
  split; [exact F |].
  destruct (latest_news_at_most_once w Sample.chat initial_state _ F)
    as (ds & tail & Ho & Hn & _).
  exists ds, tail. split; [exact Ho | exact Hn].
Defined.

(* ------------------------------------------------------------------ *)
(** ** An on-demand run in which nothing fails                         *)
(* ------------------------------------------------------------------ *)





(* ------------------------------------------------------------------ *)
(** ** The scheduler and the process                                   *)
(* ------------------------------------------------------------------ *)

Lemma check_and_send_news_to_chat w chat_id st :
  outbox_adds (fun m => fst m = chat_id) st
              (snd (check_and_send_news w chat_id st)).
Proof.
  destruct (fetch_bitcoin_news_returns w st) as [v F].
  destruct (check_and_send_news_adds w chat_id st v F) as (msgs & Ho & Hf).
  exists msgs. split; [exact Ho |].
  eapply Forall_impl; [| exact Hf].
  now intros m (n & tr & st_t & _ & _ & ->).
Qed.

Lemma latest_news_to_chat w chat_id st :
  outbox_adds (fun m => fst m = chat_id) st
              (snd (latest_news w chat_id st)).
Proof.
  destruct (fetch_bitcoin_news_returns w st) as [v F].
  destruct (latest_news_adds w chat_id st v F) as (msgs & Ho & Hf).
  exists msgs. split; [exact Ho |].
  eapply Forall_impl; [| exact Hf].
  intros m [-> | [-> | [-> | H]]]; try reflexivity.
  now destruct H as (a & title & url & tr & st_t & _ & _ & _ & _ & ->).
Qed.

Lemma start_spec w chat_id b :
  jobs (snd (start w chat_id b))
  = jobs b ++ [mkJob (CHECK_INTERVAL * 60) 10 chat_id]
  /\ db (bot_state (snd (start w chat_id b))) = db (bot_state b)
  /\ ((fst (start w chat_id b) = Ok tt
       /\ outbox (bot_state (snd (start w chat_id b)))
          = outbox (bot_state b) ++ [(chat_id, start_reply)])
      \/ (fst (start w chat_id b) = Raise TelegramError
          /\ outbox (bot_state (snd (start w chat_id b)))
             = outbox (bot_state b))).
Proof.
  unfold start.
  destruct (send_message_cases w chat_id start_reply (bot_state b))
    as [S | [_ S]]; rewrite S; cbn; auto.
Qed.

Lemma starters_app e1 e2 : starters (e1 ++ e2) = starters e1 ++ starters e2.
Proof.
  induction e1 as [| [c | c | k] e1 IH]; cbn; now rewrite ?IH.
Qed.

Lemma commanders_app e1 e2 :
  commanders (e1 ++ e2) = commanders e1 ++ commanders e2.
Proof.
  induction e1 as [| [c | c | k] e1 IH]; cbn; now rewrite ?IH.
Qed.

(** One dispatch: a job is added exactly by /start, and every message
    sent goes to the chat of the command or to the chat of a job. *)
Lemma dispatch_spec w b e :
  map job_chat_id (jobs (dispatch w b e))
  = map job_chat_id (jobs b) ++ starters [e]
  /\ jobs (dispatch w b e)
     = jobs b ++ map (mkJob (CHECK_INTERVAL * 60) 10) (starters [e])
  /\ outbox_adds
       (fun m => In (fst m) (map job_chat_id (jobs b) ++ commanders [e]))
       (bot_state b) (bot_state (dispatch w b e))
  /\ store_grows (bot_state b) (bot_state (dispatch w b e)).
Proof.
  destruct e as [c | c | k]; cbn [dispatch starters commanders map].
  - destruct (start_spec w c b) as (Hj & Hd & Ho).
    rewrite Hj, map_app. cbn [map job_chat_id].
    split; [reflexivity |]. split; [reflexivity |].
    split; [| now apply store_grows_same_db].
    destruct Ho as [[_ Ho] | [_ Ho]].
    + exists [(c, start_reply)]. split; [exact Ho |].
      constructor; [| constructor]. cbn. apply in_or_app. right. now left.
    + now apply outbox_adds_same.
  - cbn [jobs bot_state]. rewrite !app_nil_r.
    split; [reflexivity |]. split; [reflexivity |].
    split; [| apply latest_news_grows].
    destruct (latest_news_to_chat w c (bot_state b)) as (msgs & Ho & Hf).
    exists msgs. split; [exact Ho |].
    eapply Forall_impl; [| exact Hf].
    intros m ->. apply in_or_app. right. now left.
  - rewrite !app_nil_r.
    destruct (nth_error (jobs b) k) as [j |] eqn:N; cbn [jobs bot_state].
    + split; [reflexivity |]. split; [reflexivity |].
      split; [| apply check_and_send_news_grows].
      destruct (check_and_send_news_to_chat w (job_chat_id j) (bot_state b))
        as (msgs & Ho & Hf).
      exists msgs. split; [exact Ho |].
      eapply Forall_impl; [| exact Hf].
      intros m ->. apply in_map. now apply nth_error_In with k.
    + split; [reflexivity |]. split; [reflexivity |].
      split; [apply outbox_adds_refl | apply store_grows_refl].
Qed.

Lemma run_polling_spec w events : forall b,
  jobs (run_polling w events b)
  = jobs b ++ map (mkJob (CHECK_INTERVAL * 60) 10) (starters events)
  /\ outbox_adds
       (fun m => In (fst m) (map job_chat_id (jobs b) ++ commanders events))
       (bot_state b) (bot_state (run_polling w events b))
  /\ store_grows (bot_state b) (bot_state (run_polling w events b)).
Proof.
  induction events as [| e events IH]; intros b.
  - cbn. rewrite app_nil_r.
    split; [reflexivity |].
    split; [apply outbox_adds_refl | apply store_grows_refl].
  - cbn [run_polling fold_left].
    destruct (dispatch_spec w b e) as (Hc & Hj & Ho & Hg).
    destruct (IH (dispatch w b e)) as (Hj' & Ho' & Hg').
    fold (run_polling w events (dispatch w b e)) in *.
    change (e :: events) with ([e] ++ events).
    rewrite starters_app, commanders_app, map_app.
    split; [now rewrite Hj', Hj, app_assoc |].
    split; [| now apply store_grows_trans with (bot_state (dispatch w b e))].
    eapply outbox_adds_trans.
    + destruct Ho as (msgs & Hm & Hf). exists msgs. split; [exact Hm |].
      eapply Forall_impl; [| exact Hf].
      intros m Hin. apply in_app_or in Hin. apply in_or_app.
      destruct Hin as [Hin | Hin]; [now left |].
      right. apply in_or_app. now left.
    + destruct Ho' as (msgs & Hm & Hf). exists msgs. split; [exact Hm |].
      eapply Forall_impl; [| exact Hf].
      intros m Hin. rewrite Hc in Hin.
      apply in_app_or in Hin. apply in_or_app.
      destruct Hin as [Hin | Hin].
      * apply in_app_or in Hin. destruct Hin as [Hin | Hin]; [now left |].
        right. apply in_or_app. left.
        destruct e as [c | c | k]; cbn in *; tauto.
      * right. apply in_or_app. now right.
Qed.

(** X9: /start registers a job, whatever happens to the reply.  The
    handler appends one job with interval 900 s and first run after 10 s
    for the chat, before it replies: the job is there even when Telegram
    refuses the reply, and the store is not touched.  Nothing replaces or
    removes a job: after any events the queue holds the jobs it held
    before followed by one job per /start received, in order, also when
    the same chat sent /start more than once. *)
Theorem start_registers_job (w : world) (chat_id : Z) (b : bot)
    (events : list event) :
  jobs (snd (start w chat_id b)) = jobs b ++ [mkJob 900 10 chat_id]
  /\ db (bot_state (snd (start w chat_id b))) = db (bot_state b)
  /\ ((fst (start w chat_id b) = Ok tt
       /\ outbox (bot_state (snd (start w chat_id b)))
          = outbox (bot_state b) ++ [(chat_id, start_reply)])
      \/ (fst (start w chat_id b) = Raise TelegramError
          /\ outbox (bot_state (snd (start w chat_id b)))
             = outbox (bot_state b)))
  /\ jobs (run_polling w events b)
     = jobs b ++ map (mkJob 900 10) (starters events).
Proof.
  destruct (start_spec w chat_id b) as (Hj & Hd & Ho).
  split; [exact Hj |]. split; [exact Hd |]. split; [exact Ho |].
  apply (run_polling_spec w events b).
Qed.

(** X10: the bot only messages chats that sent it a command.  In a
    process that starts with an empty job queue, whatever the events,
    every message delivered went to a chat from which /start or /latest
    came, and the job queue holds jobs exactly for the chats that sent
    /start. *)
Theorem run_polling_only_answers (w : world) (events : list event)
    (st : state) :
  let b := run_polling w events (mkBot [] st) in
  (exists msgs,
     outbox (bot_state b) = outbox st ++ msgs
     /\ Forall (fun m => In (fst m) (commanders events)) msgs)
  /\ map job_chat_id (jobs b) = starters events
  /\ incl (starters events) (commanders events).
Proof.
  intros b. subst b.
  destruct (run_polling_spec w events (mkBot [] st)) as (Hj & Ho & _).
  split; [exact Ho |].
  split.
  - rewrite Hj. cbn [jobs app]. rewrite map_map. cbn. apply map_id.
  - clear. induction events as [| [c | c | k] events IH]; cbn.
    + intros x [].
    + intros x [<- | Hx]; [now left | right; now apply IH].
    + intros x Hx. right. now apply IH.
    + exact IH.
Qed.

Lemma run_polling_file w events file :
  exists added,
    committed (db (bot_state
                 (run_polling w events
                    (mkBot [] (mkState (startup file) [] [] 0)))))
    = committed (startup file) ++ added
    /\ (NoDup (map row_id (committed (startup file))) ->
        NoDup (map row_id (committed (startup file) ++ added))).
Proof.
  destruct (run_polling_spec w events
              (mkBot [] (mkState (startup file) [] [] 0)))
    as (_ & _ & (_ & [added Hc] & Hn)).
  cbn [bot_state db] in *. exists added. split; [exact Hc |].
  intros Hnd. rewrite <- Hc.
  assert (V : visible (startup file) = committed (startup file))
    by (destruct file; cbn; now rewrite ?app_nil_r).
  unfold ids in Hn. rewrite V in Hn. specialize (Hn Hnd).
  unfold visible in Hn. rewrite map_app in Hn.
  now apply NoDup_app_remove_r in Hn.
Qed.

(** X11: a process never loses a row of [news.db].  Whatever the
    configuration, the events and the way the process ends, the file it
    leaves holds the rows it found, unchanged and in place, followed by
    the rows it added; and when the fingerprints it found were unique,
    so are those it leaves. *)
Theorem main_keeps_rows (env : environment) (w : world)
    (events : list event) (how : ending) (file : db_file) :
  let rows := match file with Some rows => rows | None => [] end in
  exists added,
    file_after (main env w events how file) = Some (rows ++ added)
    /\ (NoDup (map row_id rows) -> NoDup (map row_id (rows ++ added))).
Proof.
  intros rows.
  assert (R : committed (startup file) = rows) by (now destruct file).
  destruct (run_polling_file w events file) as (added & Hc & Hn).
  rewrite R in *. unfold main. cbv zeta.
  destruct (missing_vars env) as [| var vars].
  - destruct how as [| e | e]; cbn [file_after]; unfold shutdown.
    + exists added. now rewrite Hc.
    + exists []. rewrite app_nil_r. cbn [bot_state db]. rewrite R. auto.
    + exists added. now rewrite Hc.
  - exists []. rewrite app_nil_r. cbn [file_after]. split; [| auto].
    subst rows. now destruct file.
Qed.

Lemma missing_vars_none env :
  missing_vars env = [] <->
  (forall var, In var required_vars ->
     exists value, env var = Some value /\ value <> "").
Proof.
  unfold missing_vars, required_vars. cbn [filter]. split.
  - intros H var [<- | [<- | []]].
    + destruct (env "TELEGRAM_TOKEN") as [value |]; [| discriminate].
      destruct (String.eqb_spec value ""); [discriminate |].
      now exists value.
    + destruct (env "NEWS_API_KEY") as [value |].
      * destruct (String.eqb_spec value "").
        -- destruct (match env "TELEGRAM_TOKEN" with
                     | Some value0 => (value0 =? "")%string
                     | None => true
                     end); discriminate.
        -- now exists value.
      * destruct (match env "TELEGRAM_TOKEN" with
                  | Some value0 => (value0 =? "")%string
                  | None => true
                  end); discriminate.
  - intros H.
    destruct (H "TELEGRAM_TOKEN" (or_introl eq_refl)) as (v1 & -> & N1).
    destruct (H "NEWS_API_KEY" (or_intror (or_introl eq_refl)))
      as (v2 & -> & N2).
    apply String.eqb_neq in N1, N2. now rewrite N1, N2.
Qed.

(** X12: the configuration check of the main block.  A required
    variable counts as missing when it is unset or set to the empty
    string.  If one is missing the process exits with status 1 after
    logging the missing names: it dispatches nothing, sends nothing,
    registers no job and leaves the rows of [news.db] alone (only the
    table is created, by the module body).  If none is missing the
    process exits with status 0, however its [try] ends, and the last
    thing it does is to close the connection. *)
Theorem main_missing_configuration (env : environment) (w : world)
    (events : list event) (how : ending) (file : db_file) :
  (missing_vars env = [] <->
   (forall var, In var required_vars ->
      exists value, env var = Some value /\ value <> ""))
  /\ (missing_vars env <> [] ->
      main env w events how file
      = mkEnd 1 [LogMissingVars (missing_vars env)]
              (create_table_if_not_exists file)
              (mkBot [] (mkState (startup file) [] [] 0)))
  /\ (missing_vars env = [] ->
      exit_status (main env w events how file) = 0
      /\ last (main_log (main env w events how file)) LogStarting
         = LogConnectionClosed
      /\ file_after (main env w events how file)
         = shutdown (db (bot_state (bot_after (main env w events how file)))))
  /\ incl (missing_vars env) required_vars.
Proof.
  split; [apply missing_vars_none |].
  split; [| split].
  - intros H. unfold main.
    destruct (missing_vars env) as [| var vars]; [now elim H | reflexivity].
  - intros H. unfold main. rewrite H.
    destruct how as [| e | e]; cbn; auto.
  - intros var Hv. unfold missing_vars in Hv.
    now apply filter_In in Hv.
Qed.

Lemma main_missing_configuration_witness :
  let env := fun var : string =>
    if String.eqb var "TELEGRAM_TOKEN" then Some "" else Some "key" in
  missing_vars env <> []
  /\ exit_status (main env (Sample.world_of [Sample.a1] Sample.accept_all)
                       [CommandStart Sample.chat; JobFires 0]
                       PollingStops None)
     = 1.
Proof.
  intros env.
  assert (H : missing_vars env <> []) by (cbn; discriminate).
  split; [exact H |].
  rewrite (proj1 (proj2 (main_missing_configuration env
             (Sample.world_of [Sample.a1] Sample.accept_all)
             [CommandStart Sample.chat; JobFires 0] PollingStops None)) H).
  reflexivity.
Defined.

(* ------------------------------------------------------------------ *)
(** ** When the pipelines commit                                       *)
(* ------------------------------------------------------------------ *)

Lemma nothing_pending_refl st : nothing_pending st st.
Proof. now left. Qed.

Lemma nothing_pending_trans a b c :
  nothing_pending a b -> nothing_pending b c -> nothing_pending a c.
Proof.
  unfold nothing_pending. intros [H1 | H1] [H2 | H2]; auto.
  - left. congruence.
  - right. now rewrite H2.
Qed.

Ltac keep_db :=
  first [ exact nothing_pending_refl | exact nothing_pending_trans
        | intros; now left ].

Lemma deliver_nothing_pending w chat_id n :
  preserves nothing_pending (deliver w chat_id n).
Proof.
  intros st. unfold deliver.
  pose proof (translate_text_frame w (new_title n) st) as [Hd _].
  destruct (translate_text w (new_title n) st) as [[tr | e] st1] eqn:T;
    cbn [snd] in Hd.
  - rewrite (bind_ok _ _ _ _ _ T).
    destruct (send_message_cases w chat_id (scheduled_message tr n) st1)
      as [S | [_ S]].
    + rewrite (bind_ok _ _ _ _ _ S). unfold_monad.
      destruct (insert_row (db st1) _); cbn [fst snd db].
      * now right.
      * now left.
    + rewrite (bind_raise _ _ _ _ _ S). now left.
  - rewrite (bind_raise _ _ _ _ _ T). now left.
Qed.

(** X14: a scheduled run leaves nothing of its own uncommitted.  After
    any run of [check_and_send_news], however it ends, either the store
    is exactly as it was or no row is left in an open transaction: each
    INSERT is followed by its commit. *)
Theorem check_and_send_news_commits (w : world) (chat_id : Z) (st : state) :
  let st' := snd (check_and_send_news w chat_id st) in
  (db st' = db st \/ pending (db st') = [])
  /\ (pending (db st) = [] -> pending (db st') = []).
Proof.
  intros st'. subst st'.
  assert (H : preserves nothing_pending (check_and_send_news w chat_id)).
  { apply (preserves_try nothing_pending); try keep_db.
    apply (preserves_bind nothing_pending); try keep_db.
    - apply (preserves_fetch_bitcoin_news nothing_pending); keep_db.
    - intros f. destruct (falsy f); try keep_db.
      apply (preserves_bind nothing_pending); try keep_db.
      + apply (preserves_iterate nothing_pending); keep_db.
      + intros l.
        apply (preserves_bind nothing_pending); try keep_db.
        * apply (preserves_collect_new nothing_pending); keep_db.
        * intros news.
          apply (preserves_for_each nothing_pending); try keep_db.
          intros n. apply deliver_nothing_pending. }
  specialize (H st). split; [exact H |].
  intros Hp. destruct H as [H | H]; [now rewrite H | exact H].
Qed.

Lemma same_committed_refl st : same_committed st st.
Proof. reflexivity. Qed.

Lemma same_committed_trans a b c :
  same_committed a b -> same_committed b c -> same_committed a c.
Proof. unfold same_committed. congruence. Qed.

Lemma same_committed_insert st r d' :
  insert_row (db st) r = Some d' ->
  same_committed st (mkState d' (outbox st) (log st) (clock st)).
Proof. intros H. apply insert_row_some in H. apply H. Qed.

Lemma latest_loop_same_committed w chat_id l sent :
  preserves same_committed (for_each_acc l sent (latest_step w chat_id)).
Proof.
  apply (preserves_for_each_acc _ same_committed_refl same_committed_trans).
  intros a acc.
  apply (preserves_latest_step _ same_committed_refl same_committed_trans);
    first [ exact same_committed_insert | intros; reflexivity ].
Qed.

Lemma send_message_same_committed w chat_id text :
  preserves same_committed (send_message w chat_id text).
Proof.
  apply (preserves_send_message _ same_committed_refl same_committed_trans);
    intros; reflexivity.
Qed.

(** When the [try] block of [latest_news] raises, it has committed
    nothing. *)
Lemma latest_news_try_raise w chat_id st e st2 :
  latest_news_try w chat_id st = (Raise e, st2) -> same_committed st st2.
Proof.
  unfold latest_news_try.
  pose proof (fetch_bitcoin_news_frame w st) as [Hdb _].
  destruct (fetch_bitcoin_news_returns w st) as [v F].
  destruct (fetch_bitcoin_news w st) as [r st1] eqn:E.
  cbn [fst snd] in *. subst r. rewrite (bind_ok _ _ _ _ _ E).
  assert (H1 : same_committed st st1) by (unfold same_committed; now rewrite Hdb).
  destruct v as [| l].
  - rewrite (bind_raise (slice5 FNone) _ st1 TypeError st1 eq_refl).
    now intros [= _ <-].
  - rewrite (bind_ok (slice5 (FList l)) _ st1 (firstn 5 l) st1 eq_refl).
    destruct (firstn 5 l) as [| a l5].
    + pose proof (send_message_same_committed w chat_id no_news_found st1)
        as H2.
      intros T. rewrite T in H2. cbn [snd] in H2.
      now apply same_committed_trans with st1.
    + pose proof (latest_loop_same_committed w chat_id (a :: l5) [] st1)
        as H2.
      destruct (for_each_acc (a :: l5) [] (latest_step w chat_id) st1)
        as [[sent | e'] st3] eqn:LP; cbn [snd] in H2.
      * rewrite (bind_ok _ _ _ _ _ LP).
        destruct sent as [| s sent].
        -- pose proof (send_message_same_committed w chat_id nothing_new st3)
             as H3.
           destruct (send_message w chat_id nothing_new st3)
             as [[[] | e''] st4] eqn:S; cbn [snd] in H3.
           ++ rewrite (bind_ok _ _ _ _ _ S). unfold_monad. discriminate.
           ++ rewrite (bind_raise _ _ _ _ _ S). intros [= _ <-].
              apply same_committed_trans with st1; [exact H1 |].
              now apply same_committed_trans with st3.
        -- rewrite (bind_ok (ret tt) _ st3 tt st3 eq_refl). unfold_monad.
           discriminate.
      * rewrite (bind_raise _ _ _ _ _ LP). intros [= _ <-].
        now apply same_committed_trans with st1.
Qed.

(** X13: an on-demand run that fails commits nothing.  When the [try]
    block of [latest_news] raises, at whatever point, the committed rows
    after the run are those before it: the rows inserted for the
    articles that the run delivered are left in the open transaction,
    behind those that were pending before. *)
Theorem latest_news_failure_commits_nothing (w : world) (chat_id : Z)
    (st : state) (e : exn) :
  fst (latest_news_try w chat_id st) = Raise e ->
  let st' := snd (latest_news w chat_id st) in
  committed (db st') = committed (db st)
  /\ exists added, pending (db st') = pending (db st) ++ added.
Proof.
  intros T st'. subst st'.
  assert (C : committed (db (snd (latest_news w chat_id st)))
              = committed (db st)).
  { unfold latest_news, try_except.
    destruct (latest_news_try w chat_id st) as [r st2] eqn:Tr.
    cbn [fst] in T. subst r.
    pose proof (latest_news_try_raise w chat_id st e st2 Tr) as H.
    rewrite (bind_ok (logger (LogLatestError e)) _ st2 tt _ eq_refl).
    match goal with
    | |- context [send_message w chat_id error_reply ?s] =>
        pose proof (send_message_same_committed w chat_id error_reply s) as H2
    end.
    unfold same_committed in *. cbn [db] in H2. now rewrite H2. }
  split; [exact C |].
  destruct (latest_news_grows w chat_id st) as ([added Hv] & _ & _).
  exists added. unfold visible in Hv. rewrite C, <- app_assoc in Hv.
  now apply app_inv_head in Hv.
Qed.

Lemma latest_news_failure_commits_nothing_witness :
  let w := Sample.world_of [Sample.a1; Sample.bad_stamp] Sample.accept_all in
  fst (latest_news_try w Sample.chat initial_state) = Raise ValueError
  /\ committed (db (snd (latest_news w Sample.chat initial_state))) = [].
Proof.
  intros w.
  assert (T : fst (latest_news_try w Sample.chat initial_state)
              = Raise ValueError) by (vm_compute; reflexivity).
  split; [exact T |].
  exact (proj1 (latest_news_failure_commits_nothing w Sample.chat
                  initial_state ValueError T)).
Defined.

(* ------------------------------------------------------------------ *)
(** ** Timestamps in NewsAPI's format                                  *)
(* ------------------------------------------------------------------ *)

Lemma pad2_value (n : nat) :
  n < 100 ->
  exists a b, pad2 n = String a (String b "")
              /\ Strptime.is_digit a = true /\ Strptime.is_digit b = true
              /\ 10 * Strptime.digit_val a + Strptime.digit_val b = n.
Proof.
  intros H.
  assert (E : forallb (fun n =>
                match pad2 n with
                | String a (String b EmptyString) =>
                    Strptime.is_digit a && Strptime.is_digit b
                    && Nat.eqb (10 * Strptime.digit_val a
                                + Strptime.digit_val b) n
                | _ => false
                end) (seq 0 100) = true) by (vm_compute; reflexivity).
  rewrite forallb_forall in E. specialize (E n).
  destruct (pad2 n) as [| a [| b [| c r]]];
    try (assert (false = true) by (apply E, in_seq; lia); discriminate).
  assert (Hd : Strptime.is_digit a && Strptime.is_digit b
               && Nat.eqb (10 * Strptime.digit_val a + Strptime.digit_val b) n
               = true) by (apply E, in_seq; lia).
  apply andb_prop in Hd. destruct Hd as [Hd Hv].
  apply andb_prop in Hd. destruct Hd as [Ha Hb].
  apply Nat.eqb_eq in Hv. exists a, b. auto.
Qed.

Lemma year_value (y : nat) :
  1000 <= y <= MAXYEAR ->
  exists a b c d,
    decimal y = String a (String b (String c (String d "")))
    /\ Strptime.is_digit a && Strptime.is_digit b && Strptime.is_digit c
       && Strptime.is_digit d = true
    /\ 1000 * Strptime.digit_val a + 100 * Strptime.digit_val b
       + 10 * Strptime.digit_val c + Strptime.digit_val d = y.
Proof.
  intros H. unfold MAXYEAR in H.
  assert (E : forallb (fun n =>
                match decimal n with
                | String a (String b (String c (String d EmptyString))) =>
                    Strptime.is_digit a && Strptime.is_digit b
                    && Strptime.is_digit c && Strptime.is_digit d
                    && Nat.eqb (1000 * Strptime.digit_val a
                                + 100 * Strptime.digit_val b
                                + 10 * Strptime.digit_val c
                                + Strptime.digit_val d) n
                | _ => false
                end) (seq 1000 (9 * 1000)) = true) by (vm_compute; reflexivity).
  rewrite forallb_forall in E. specialize (E y).
  destruct (decimal y) as [| a [| b [| c [| d [| e r]]]]];
    try (assert (false = true) by (apply E, in_seq; lia); discriminate).
  match type of E with
  | _ -> ?X = true => assert (Hd : X = true) by (apply E, in_seq; lia)
  end.
  apply andb_prop in Hd. destruct Hd as [Hd Hv].
  apply Nat.eqb_eq in Hv. exists a, b, c, d. auto.
Qed.

Lemma two_digits_first {A} (lo hi : nat) (k : nat -> string -> option A)
    (alt : option A) a b r v res :
  Strptime.is_digit a = true -> Strptime.is_digit b = true ->
  10 * Strptime.digit_val a + Strptime.digit_val b = v ->
  lo <= v <= hi ->
  k v r = Some res ->
  Strptime.orelse (Strptime.two_digits lo hi k (String a (String b r))) alt
  = Some res.
Proof.
  intros Ha Hb Hv [Hlo Hhi] Hk. unfold Strptime.two_digits.
  rewrite Ha, Hb, Hv.
  apply Nat.leb_le in Hlo, Hhi. rewrite Hlo, Hhi. cbn. now rewrite Hk.
Qed.

(** X15: the first loop accepts NewsAPI's timestamps.  For every valid
    date and time with a four-digit year, the text in the format
    ['%Y-%m-%dT%H:%M:%SZ'] parses back to that very date and time, so an
    article that carries it (with title, url and source name) is
    well-formed; and the scheduled notification shows its day, month,
    year, hour and minute, in that order. *)
Theorem newsapi_timestamp_accepted (d : datetime) (title url name : pyval) :
  valid_datetime d = true ->
  1000 <= year d ->
  Strptime.parse (newsapi_timestamp d) = Some d
  /\ parsed (mkArticle (Some title) (Some url)
                       (Some (SourceObject (Some name)))
                       (Some (PStr (newsapi_timestamp d))))
     = Some (mkNew (generate_news_id title url) title url name d)
  /\ strftime d
     = (pad2 (day d) ++ "." ++ pad2 (month d) ++ "." ++ decimal (year d)
        ++ " " ++ pad2 (hour d) ++ ":" ++ pad2 (minute d))%string
  /\ dd_mm_yyyy_hh_mm (strftime d) = true.
Proof.
  intros V Hy.
  assert (P : Strptime.parse (newsapi_timestamp d) = Some d).
  { pose proof V as V'. unfold valid_datetime in V'.
    repeat (apply andb_prop in V'; destruct V' as [V' ?]).
    repeat match goal with
           | H : Nat.leb _ _ = true |- _ => apply Nat.leb_le in H
           end.
    pose proof (days_in_month_bound (year d) (month d)).
    destruct d as [Y m dd H' M S]. cbn [year month day hour minute second] in *.
    unfold newsapi_timestamp. cbn [year month day hour minute second].
    destruct (year_value Y) as (y1 & y2 & y3 & y4 & -> & Dy & Vy); [lia |].
    destruct (pad2_value m) as (m1 & m2 & -> & ? & ? & ?); [lia |].
    destruct (pad2_value dd) as (d1 & d2 & -> & ? & ? & ?); [lia |].
    destruct (pad2_value H') as (h1 & h2 & -> & ? & ? & ?); [lia |].
    destruct (pad2_value M) as (n1 & n2 & -> & ? & ? & ?); [lia |].
    destruct (pad2_value S) as (s1 & s2 & -> & ? & ? & ?); [lia |].
    cbn [append]. unfold Strptime.parse.
    assert (R : Strptime.regex_match
                  (String y1 (String y2 (String y3 (String y4
                   (String "-" (String m1 (String m2
                   (String "-" (String d1 (String d2
                   (String "T" (String h1 (String h2
                   (String ":" (String n1 (String n2
                   (String ":" (String s1 (String s2 "Z")))))))))))))))))))
                = Some (mkDatetime Y m dd H' M S, EmptyString)).
    { unfold Strptime.regex_match, Strptime.four_digits.
      rewrite Dy, Vy. cbn [Strptime.lit Ascii.eqb Bool.eqb orb].
      unfold Strptime.directive_m.
      apply two_digits_first with (v := m); auto; try lia.
      cbn [Strptime.lit Ascii.eqb Bool.eqb orb].
      unfold Strptime.directive_d.
      apply two_digits_first with (v := dd); auto; try lia.
      cbn [Strptime.lit Ascii.eqb Bool.eqb orb].
      unfold Strptime.directive_H.
      apply two_digits_first with (v := H'); auto; try lia.
      cbn [Strptime.lit Ascii.eqb Bool.eqb orb].
      unfold Strptime.directive_M.
      apply two_digits_first with (v := M); auto; try lia.
      cbn [Strptime.lit Ascii.eqb Bool.eqb orb].
      unfold Strptime.directive_S.
      apply two_digits_first with (v := S); auto; try lia. }
    rewrite R, V. reflexivity. }
  split; [exact P |].
  split; [unfold parsed; cbn; now rewrite P |].
  split; [reflexivity |].
  now apply strftime_shape.
Qed.

Lemma newsapi_timestamp_accepted_witness :
  valid_datetime (mkDatetime 2024 2 29 23 59 59) = true
  /\ 1000 <= 2024
  /\ Strptime.parse "2024-02-29T23:59:59Z"
     = Some (mkDatetime 2024 2 29 23 59 59).
Proof.
  split; [reflexivity |]. split; [lia |].
  exact (proj1 (newsapi_timestamp_accepted (mkDatetime 2024 2 29 23 59 59)
                  PNone PNone PNone eq_refl
                  ltac:(cbn; lia))).
Defined.
